(** * llm-search: search-then-crawl pipeline of [server.py]

    A shallow embedding of the three functions of [server.py]
    ([search_light], [crawl_all], [llm_search]) and the properties of the
    pipeline they implement.

    Conventions of the embedding.
    - JSON data decoded by [r.json()] is a [value]; JSON objects are Python
      dicts, modelled as association lists in insertion order with pairwise
      distinct keys.  Fractional numbers are not represented.
    - A Python exception is an [exn]; a computation that may raise returns a
      [result].  Only instances of [Exception] are represented: the process
      rebinds SIGINT/SIGTERM to [shutdown], so no [KeyboardInterrupt] is
      delivered to the pipeline.
    - In-place mutation of the organic results is explicit store passing:
      [crawl_all] returns the list as it stands when the call ends, whether
      it ends normally or by an exception.
    - Calls to the outside world (the HTTP request, the crawler pool, the
      logger) are recorded as [event]s, in program order. *)

From Stdlib Require Import ZArith String.
From stdpp Require Import base option list strings.

Local Open Scope string_scope.
Local Open Scope Z_scope.
Local Open Scope list_scope.
Local Set Warnings "-register-all".

(** ** Values *)

Inductive value : Type :=
| VNone
| VBool (b : bool)
| VInt (z : Z)
| VStr (s : string)
| VList (l : list value)
| VDict (d : list (string * value)).

(** Python truthiness ([if x:], [not x]). *)
Definition truthy (v : value) : bool :=
  match v with
  | VNone => false
  | VBool b => b
  | VInt z => negb (z =? 0)
  | VStr s => negb (String.eqb s "")
  | VList l => match l with [] => false | _ => true end
  | VDict d => match d with [] => false | _ => true end
  end.

Definition is_VNone (v : value) : bool :=
  match v with VNone => true | _ => false end.

(** ** Exceptions *)

Inductive exn : Type :=
| KeyError
| TypeError
| AttributeError
| IndexError
| UnboundLocalError
| Raised (name : string).   (* an [Exception] raised by a collaborator *)

Inductive result (A : Type) : Type :=
| Ok (a : A)
| Err (e : exn).
Arguments Ok {A} a.
Arguments Err {A} e.

#[global] Instance result_ret : MRet result := λ A a, Ok a.
#[global] Instance result_bind : MBind result := λ A B k r,
  match r with
  | Ok a => k a
  | Err e => Err e
  end.

Definition is_Ok {A} (r : result A) : bool :=
  match r with Ok _ => true | Err _ => false end.

(** ** Dicts: association lists in insertion order *)

Section dict.
Context {K V : Type} `{EqDecision K}.

(** [d.get(k)], [None] when the key is absent. *)
Fixpoint dict_get (k : K) (d : list (K * V)) : option V :=
  match d with
  | [] => None
  | (k', v) :: d' => if decide (k = k') then Some v else dict_get k d'
  end.

(** [d[k] = v]: an existing key keeps its position, a new key goes last. *)
Fixpoint dict_set (k : K) (v : V) (d : list (K * V)) : list (K * V) :=
  match d with
  | [] => [(k, v)]
  | (k', v') :: d' =>
      if decide (k = k') then (k', v) :: d' else (k', v') :: dict_set k v d'
  end.

End dict.

(** [v[k]] for a string subscript [k]: only a dict accepts it. *)
Definition getitem (v : value) (k : string) : result value :=
  match v with
  | VDict d => match dict_get k d with
               | Some x => Ok x
               | None => Err KeyError
               end
  | _ => Err TypeError
  end.

(** [v[k] = x] for a string subscript [k]. *)
Definition setitem (v : value) (k : string) (x : value) : result value :=
  match v with
  | VDict d => Ok (VDict (dict_set k x d))
  | _ => Err TypeError
  end.

(** ** Hashable keys

    [url_to_idx] is keyed by whatever [res["link"]] holds.  Lists and dicts
    are unhashable; [True == 1] and [False == 0] are the same key. *)

Inductive key : Type :=
| KNone
| KNum (z : Z)
| KStr (s : string).

#[global] Instance key_eq_dec : EqDecision key.
Proof. solve_decision. Defined.

Definition hash_key (v : value) : result key :=
  match v with
  | VNone => Ok KNone
  | VBool b => Ok (KNum (Z.b2z b))
  | VInt z => Ok (KNum z)
  | VStr s => Ok (KStr s)
  | VList _ | VDict _ => Err TypeError
  end.

(** ** Observable events *)

Inductive event : Type :=
| EvGet (url : string) (params : list (string * value)) (timeout : Z)
| EvCrawl (urls : list key) (wait_time total_time : Z)
| EvLogError (msg : string)
| EvLogWarning (msg : string).

(** ** Search Client: [search_light] *)

(** The [Literal[...]] parameter types. *)
Inductive safe_level : Type := SafeActive | SafeOff.
Inductive bit01 : Type := Bit0 | Bit1.
Inductive device_kind : Type := Desktop | Tablet | Mobile.

Definition safe_value (s : safe_level) : value :=
  match s with SafeActive => VStr "active" | SafeOff => VStr "off" end.
Definition bit_value (b : bit01) : value :=
  match b with Bit0 => VInt 0 | Bit1 => VInt 1 end.
Definition device_value (d : device_kind) : value :=
  match d with
  | Desktop => VStr "desktop"
  | Tablet => VStr "tablet"
  | Mobile => VStr "mobile"
  end.

(** An argument of type [Union[T, None]]. *)
Definition opt_value {A} (f : A → value) (o : option A) : value :=
  match o with Some a => f a | None => VNone end.

(** The arguments of one call of [search_light]. *)
Module Args.
Record t : Type := mk {
  q : string;
  location : option string;
  safe : option safe_level;
  nfpr : option bit01;
  filter : option bit01;
  start : option Z;
  num : option Z;
  device : option device_kind;
  no_cache : option bool;
  aasync : option bool;
  zero_trace : option bool
}.
End Args.

Definition serp_url : string := "https://serpapi.com/search".

(** The names of the optional search parameters, as sent on the wire. *)
Definition optional_params : list string :=
  ["safe"; "nfpr"; "filter"; "start"; "num"; "device"; "no_cache"; "async";
   "zero_trace"].

Section search.
(** [os.getenv("SERP_API_KEY")], read once at import time. *)
Variable serp_api_key : option string.
(** [session.get(url, params=..., timeout=..., raise_for_status=True)]
    followed by [r.json()]: the remote search API. *)
Variable http_get_json : string → list (string * value) → Z → result value.

(** Lines 70-71: [if location: q = q + ", location: %s" % location]. *)
Definition query_text (q : string) (location : option string) : string :=
  if truthy (opt_value VStr location)
  then q +:+ ", location: " +:+ default "" location
  else q.

(** Lines 73-86: the dict literal. *)
Definition payload_literal (a : Args.t) : list (string * value) :=
  let q := query_text (Args.q a) (Args.location a) in
  [ ("engine", VStr "google_light");
    ("q", VStr q);
    ("api_key", opt_value VStr serp_api_key);
    ("safe", opt_value safe_value (Args.safe a));
    ("nfpr", opt_value bit_value (Args.nfpr a));
    ("filter", opt_value bit_value (Args.filter a));
    ("start", opt_value VInt (Args.start a));
    ("num", opt_value VInt (Args.num a));
    ("device", opt_value device_value (Args.device a));
    ("no_cache", opt_value VBool (Args.no_cache a));
    ("async", opt_value VBool (Args.aasync a));
    ("zero_trace", opt_value VBool (Args.zero_trace a)) ].

(** Line 88: the comprehension keeping the entries that are not [None]. *)
Definition payload (a : Args.t) : list (string * value) :=
  List.filter (λ kv, negb (is_VNone kv.2)) (payload_literal a).

(** Lines 89-92: one GET with a timeout of 10; the decoded body is returned
    and a failed request propagates. *)
Definition search_light (a : Args.t) : result value * list event :=
  let payload := payload a in
  (http_get_json serp_url payload 10, [EvGet serp_url payload 10]).

(** What each optional argument contributes to the request. *)
Definition optional_arg (a : Args.t) (k : string) : option value :=
  if decide (k = "safe") then safe_value <$> Args.safe a
  else if decide (k = "nfpr") then bit_value <$> Args.nfpr a
  else if decide (k = "filter") then bit_value <$> Args.filter a
  else if decide (k = "start") then VInt <$> Args.start a
  else if decide (k = "num") then VInt <$> Args.num a
  else if decide (k = "device") then device_value <$> Args.device a
  else if decide (k = "no_cache") then VBool <$> Args.no_cache a
  else if decide (k = "async") then VBool <$> Args.aasync a
  else if decide (k = "zero_trace") then VBool <$> Args.zero_trace a
  else None.

End search.

(** ** Content Extractor: the document tree *)

(** The tree [BeautifulSoup(page_source, "html.parser")] builds: strings
    (text, comments, declarations) and tags with their contents. *)
Inductive node : Type :=
| Text (s : string)
| Tag (name : string) (attrs : list (string * string)) (contents : list node).

Definition denylist : list string :=
  ["nav"; "footer"; "aside"; "script"; "style"; "form"].

(** Lines 108-109: [for tag in soup([...]): tag.decompose()].  [soup(names)]
    lists every tag of the tree whose name is one of [names]; [decompose]
    removes the tag and all it contains from the tree. *)
Fixpoint decompose_matching (names : list string) (n : node) : list node :=
  match n with
  | Text s => [Text s]
  | Tag name attrs contents =>
      if bool_decide (name ∈ names) then []
      else [Tag name attrs (concat (map (decompose_matching names) contents))]
  end.

Definition decompose_all (names : list string) (soup : list node) : list node :=
  concat (map (decompose_matching names) soup).

(** A tag named in [names] occurs in the tree. *)
Fixpoint occurs (names : list string) (n : node) : bool :=
  match n with
  | Text _ => false
  | Tag name _ contents =>
      bool_decide (name ∈ names) || existsb (occurs names) contents
  end.

(** ** Enrichment Orchestrator: [crawl_all] *)

Section crawl.
(** [crawler_pool.dynamic_crawl_multi_urls(urls, wait_time=, total_time=)]:
    the page-fetching engine, returning a dict from URL to page source. *)
Variable dynamic_crawl_multi_urls :
  list key → Z → Z → result (list (key * string)).
(** [BeautifulSoup(page_source, "html.parser")], [soup.prettify()] and
    [html2text.html2text(page_source)]: third-party calls, each of which may
    raise. *)
Variable parse_html : string → result (list node).
Variable prettify : list node → result string.
Variable html2text : string → result string.

(** Lines 98-100: [url_to_idx[res["link"]] = idx] over [enumerate]. *)
Fixpoint index_links (idx : nat) (organic_results : list value)
    (url_to_idx : list (key * nat)) : result (list (key * nat)) :=
  match organic_results with
  | [] => Ok url_to_idx
  | res :: rest =>
      link ← getitem res "link";
      k ← hash_key link;
      index_links (S idx) rest (dict_set k idx url_to_idx)
  end.

(** Lines 107-111.  The first component is what the variable [page_source]
    is bound to when the block ends or raises (line 110 rebinds it).  A
    failure of the loop of lines 108-109 is not told apart from one of the
    parser: both leave [page_source] and the results as they were. *)
Definition extract (page_source : string) : string * result string :=
  match parse_html page_source with
  | Err e => (page_source, Err e)
  | Ok soup =>
      match prettify (decompose_all denylist soup) with
      | Err e => (page_source, Err e)
      | Ok page_source' => (page_source', html2text page_source')
      end
  end.

(** Lines 106-115: the body of the page loop with its handler. *)
Definition attach (url_to_idx : list (key * nat)) (organic_results : list value)
    (url : key) (page_source : string) : list value * list event :=
  let '(page_source', markdown) := extract page_source in
  let attempt :=
    markdown ← markdown;
    idx ← from_option Ok (Err KeyError) (dict_get url url_to_idx);
    res ← from_option Ok (Err IndexError) (organic_results !! idx);
    res' ← setitem res "text_content" (VStr markdown);
    Ok (<[idx := res']> organic_results) in
  match attempt with
  | Ok organic_results' => (organic_results', [])
  | Err _ =>
      (organic_results,
       [EvLogWarning ("fail parse page_source " +:+ page_source')])
  end.

(** Line 105: [for url, page_source in page_sources.items()]. *)
Fixpoint attach_all (url_to_idx : list (key * nat))
    (page_sources : list (key * string)) (organic_results : list value)
    : list value * list event :=
  match page_sources with
  | [] => (organic_results, [])
  | (url, page_source) :: rest =>
      let '(rs1, log1) := attach url_to_idx organic_results url page_source in
      let '(rs2, log2) := attach_all url_to_idx rest rs1 in
      (rs2, log1 ++ log2)
  end.

(** Lines 95-115.  [total_time] is a number of seconds, an integer at the
    only call site.  The local [page_sources] is bound only when the crawl
    returns; the handler of lines 103-104 logs and falls through to the
    loop.  The result is the outcome, the organic results as the call
    leaves them, and the events of the call. *)
Definition crawl_all (organic_results : list value) (total_time : Z)
    : result () * list value * list event :=
  if negb (truthy (VList organic_results)) then (Ok (), organic_results, [])
  else
    match index_links 0 organic_results [] with
    | Err e => (Err e, organic_results, [])
    | Ok url_to_idx =>
        let urls := url_to_idx.*1 in
        let '(page_sources, log) :=
          match dynamic_crawl_multi_urls urls 0 total_time with
          | Ok ps => (Some ps, [])
          | Err _ => (None, [EvLogError "unable to crawl"])
          end in
        match page_sources with
        | None =>
            (Err UnboundLocalError, organic_results,
             EvCrawl urls 0 total_time :: log)
        | Some ps =>
            let '(rs, log') := attach_all url_to_idx ps organic_results in
            (Ok (), rs, EvCrawl urls 0 total_time :: log ++ log')
        end
    end.

(** [crawl_all] applied to whatever [search_result["organic_results"]]
    holds: a falsy value returns at line 97, a list is enumerated, and any
    other truthy value raises [TypeError] in the first loop (it is not
    iterable, or its items do not accept a string subscript). *)
Definition crawl_all_value (organic_results : value) (total_time : Z)
    : result () * value * list event :=
  match organic_results with
  | VList rs =>
      let '(r, rs', log) := crawl_all rs total_time in (r, VList rs', log)
  | v => if truthy v then (Err TypeError, v, []) else (Ok (), v, [])
  end.

End crawl.

(** ** Tool Entry Point: [llm_search] *)

Section tool.
Variable serp_api_key : option string.
Variable http_get_json : string → list (string * value) → Z → result value.
Variable dynamic_crawl_multi_urls :
  list key → Z → Z → result (list (key * string)).
Variable parse_html : string → result (list node).
Variable prettify : list node → result string.
Variable html2text : string → result string.

(** Line 41: the comprehension keeping two keys; [items()] needs a dict. *)
Definition trim (search_result : value) : result (list (string * value)) :=
  match search_result with
  | VDict d =>
      Ok (List.filter
            (λ kv, bool_decide (kv.1 ∈ ["answer_box"; "organic_results"])) d)
  | _ => Err AttributeError
  end.

(** The organic results are mutated in place, so the change is seen through
    [search_result]; in a freshly decoded response the list is reachable
    under this key only. *)
Definition write_back (search_result organic_results : value) : value :=
  match search_result with
  | VDict d => VDict (dict_set "organic_results" organic_results d)
  | v => v
  end.

(** Lines 37-43.  [search_light] gets [query], [location] and [start]; its
    other arguments keep their default [None]. *)
Definition llm_search (query : string) (location : option string)
    (start : option Z) (crawl : option bool)
    : result (list (string * value)) * list event :=
  let a :=
    Args.mk query location None None None start None None None None None in
  let '(r, log) := search_light serp_api_key http_get_json a in
  match r with
  | Err e => (Err e, log)
  | Ok search_result =>
      if truthy (opt_value VBool crawl) then
        match getitem search_result "organic_results" with
        | Err e => (Err e, log)
        | Ok organic_results =>
            let '(r, organic_results', log') :=
              crawl_all_value dynamic_crawl_multi_urls parse_html prettify
                html2text organic_results 8 in
            match r with
            | Err e => (Err e, log ++ log')
            | Ok _ =>
                (trim (write_back search_result organic_results'),
                 log ++ log')
            end
        end
      else (trim search_result, log)
  end.

End tool.

(** ** Notions used to state the properties *)

(** The key under which a result is indexed: [res["link"]], hashed. *)
Definition link_key (res : value) : result key :=
  link ← getitem res "link"; hash_key link.

(** The index of the last result of the list whose link is [k]. *)
Fixpoint last_carrier (k : key) (organic_results : list value) : option nat :=
  match organic_results with
  | [] => None
  | res :: rest =>
      match last_carrier k rest with
      | Some j => Some (S j)
      | None =>
          match link_key res with
          | Ok k' => if decide (k' = k) then Some 0%nat else None
          | Err _ => None
          end
      end
  end.

(** A result after line 113 ran on it with [markdown]. *)
Definition with_text (markdown : string) (res : value) : value :=
  match res with
  | VDict d => VDict (dict_set "text_content" (VStr markdown) d)
  | v => v
  end.

(** What [crawl_all] yields: how the call ends, and the organic results as
    it leaves them. *)
Definition outcome (x : result () * list value * list event) : result () :=
  x.1.1.
Definition results_after (x : result () * list value * list event)
    : list value := x.1.2.

(** Exactly the results whose link was fetched and extracted carry a
    [text_content] field in [rs']. *)
Definition fetched_carry_text (extracted : string → result string)
    (pages : list (key * string)) (rs rs' : list value) : Prop :=
  ∀ i res res', rs !! i = Some res → rs' !! i = Some res' →
    is_Ok (getitem res' "text_content") = true
    ↔ ∃ u ps markdown,
        link_key res = Ok u ∧ (u, ps) ∈ pages ∧ extracted ps = Ok markdown.

(** Every result carrying link [u] holds [markdown] as its text in [rs']. *)
Definition all_carriers_have_text (rs rs' : list value) (u : key)
    (markdown : string) : Prop :=
  ∀ i res, rs !! i = Some res → link_key res = Ok u →
    ∃ res', rs' !! i = Some res' ∧
            getitem res' "text_content" = Ok (VStr markdown).

(** Stand-ins for the collaborators, used to run the pipeline on concrete
    inputs: a crawler pool that is down, one that returns a fixed dict, and
    a parser, serializer and converter that succeed on every input. *)
Definition pool_down : list key → Z → Z → result (list (key * string)) :=
  λ _ _ _, Err (Raised "RuntimeError").
Definition pool_returns (page_sources : list (key * string))
    : list key → Z → Z → result (list (key * string)) :=
  λ _ _ _, Ok page_sources.
Definition parse_as_text : string → result (list node) :=
  λ s, Ok [Tag "p" [] [Text s]].
Fixpoint node_text (n : node) : string :=
  match n with
  | Text s => s
  | Tag _ _ contents => fold_right (λ c acc, node_text c +:+ acc) "" contents
  end.
Definition prettify_text : list node → result string :=
  λ soup, Ok (fold_right (λ c acc, node_text c +:+ acc) "" soup).
Definition html2text_id : string → result string := λ s, Ok s.
Definition api_returns (response : value)
    : string → list (string * value) → Z → result value :=
  λ _ _ _, Ok response.

(** Two results carrying the same link, and a third with its own. *)
Definition result_a1 : value :=
  VDict [("title", VStr "A"); ("link", VStr "https://a.example");
         ("snippet", VStr "first")].
Definition result_a2 : value :=
  VDict [("title", VStr "A again"); ("link", VStr "https://a.example");
         ("snippet", VStr "second")].
Definition result_b : value :=
  VDict [("title", VStr "B"); ("link", VStr "https://b.example");
         ("snippet", VStr "third")].

Definition page_a : list (key * string) :=
  [(KStr "https://a.example", "hello")].

Definition page_a_and_b : list (key * string) :=
  [(KStr "https://a.example", "hello"); (KStr "https://b.example", "world")].

(** A parser that raises on the page ["hello"] and succeeds otherwise. *)
Definition parse_rejecting_hello : string → result (list node) :=
  λ s, if String.eqb s "hello" then Err (Raised "ParserRejectedMarkup")
       else parse_as_text s.

(** A raw search response with a field the tool does not return. *)
Definition raw_response : value :=
  VDict [("search_metadata", VDict [("status", VStr "Success")]);
         ("answer_box", VDict [("type", VStr "weather_result")]);
         ("organic_results", VList [result_a1; result_b])].

(** The events a call leaves behind. *)
Definition events {A B} (x : A * B * list event) : list event := x.2.

(** The calls of the crawler pool recorded in a log, in order. *)
Definition crawls (log : list event) : list (list key * Z * Z) :=
  omap (λ ev, match ev with
              | EvCrawl urls wait_time total_time =>
                  Some (urls, wait_time, total_time)
              | _ => None
              end) log.

Definition is_warning (ev : event) : bool :=
  match ev with EvLogWarning _ => true | _ => false end.

(** The text of the last page of [pages] that is extracted and indexed to
    slot [i], if there is one. *)
Fixpoint slot_text (extracted : string → result string)
    (url_to_idx : list (key * nat)) (pages : list (key * string)) (i : nat)
    : option string :=
  match pages with
  | [] => None
  | (url, ps) :: rest =>
      match slot_text extracted url_to_idx rest i with
      | Some markdown => Some markdown
      | None =>
          match extracted ps, dict_get url url_to_idx with
          | Ok markdown, Some idx =>
              if decide (idx = i) then Some markdown else None
          | _, _ => None
          end
      end
  end.

(** What the handler of lines 114-115 logs for a page: nothing when the
    page is extracted and its URL indexed, else one warning quoting
    [page_source] as bound at that point. *)
Definition page_log (extracted : string → string * result string)
    (url_to_idx : list (key * nat)) (page : key * string) : list event :=
  match (extracted page.2).2, dict_get page.1 url_to_idx with
  | Ok _, Some _ => []
  | _, _ =>
      [EvLogWarning ("fail parse page_source " +:+ (extracted page.2).1)]
  end.

(** A tree with a denylisted tag inside an ordinary one. *)
Definition sample_soup : list node :=
  [Tag "div" [] [Text "intro"; Tag "nav" [] [Text "menu"];
                 Tag "p" [("class", "x")] [Text "body"]];
   Tag "script" [] [Text "var x;"]].

(** A parser that yields [sample_soup] whatever the markup. *)
Definition parse_sample : string → result (list node) :=
  λ _, Ok sample_soup.

(** Results without a usable link: no [link] key, and a list as link. *)
Definition result_no_link : value :=
  VDict [("title", VStr "C"); ("snippet", VStr "no link")].
Definition result_list_link : value :=
  VDict [("title", VStr "D"); ("link", VList [VStr "https://d.example"])].

(** A page for a URL no result carries. *)
Definition page_elsewhere : list (key * string) :=
  [(KStr "https://elsewhere.example", "stray")].

(** The results the index points to are dicts. *)
Definition indexed_dicts (url_to_idx : list (key * nat)) (rs : list value)
    : Prop :=
  ∀ u i, dict_get u url_to_idx = Some i → ∃ d, rs !! i = Some (VDict d).

(** A search API that answers with an error status. *)
Definition api_down : string → list (string * value) → Z → result value :=
  λ _ _ _, Err (Raised "ClientResponseError").

(** A response without organic results. *)
Definition answer_only : list (string * value) :=
  [("search_metadata", VDict [("status", VStr "Success")]);
   ("answer_box", VDict [("type", VStr "weather_result")])].

(** Two calls of [search_light]: a location given apart, and the same
    words already in the query. *)
Definition args_with_location : Args.t :=
  Args.mk "weather today" (Some "Paris") (Some SafeOff) None (Some Bit0)
    (Some 0) None (Some Mobile) (Some false) None None.
Definition args_location_in_query : Args.t :=
  Args.mk "weather today, location: Paris" None (Some SafeOff) None
    (Some Bit0) (Some 0) None (Some Mobile) (Some false) None None.

(** Every result whose link was fetched and extracted, other than the
    link [u] of the page that failed, holds that page's text in [rs']. *)
Definition only_failed_page_lacks_text (extracted : string → result string)
    (pages : list (key * string)) (u : key) (rs rs' : list value) : Prop :=
  ∀ i res res' u' ps' markdown,
    rs !! i = Some res → rs' !! i = Some res' →
    link_key res = Ok u' → u' ≠ u →
    (u', ps') ∈ pages → extracted ps' = Ok markdown →
    getitem res' "text_content" = Ok (VStr markdown).

(** A parser that raises on the page ["world"] and succeeds otherwise. *)
Definition parse_rejecting_world : string → result (list node) :=
  λ s, if String.eqb s "world" then Err (Raised "ParserRejectedMarkup")
       else parse_as_text s.

(** A raw search response in which two organic results share a link. *)
Definition raw_response_shared_link : value :=
  VDict [("search_metadata", VDict [("status", VStr "Success")]);
         ("organic_results", VList [result_a1; result_a2; result_b])].

(** * Properties *)

(** ** Dict lemmas *)

Section dict_facts.
Context {K V : Type} `{EqDecision K}.
Implicit Types (k : K) (v : V) (d : list (K * V)).

Lemma dict_get_set_eq k v d : dict_get k (dict_set k v d) = Some v.
Proof.
  induction d as [|[k' v'] d IH]; simpl.
  - by rewrite decide_True.
  - destruct (decide (k = k')) as [->|Hne]; simpl.
    + by rewrite decide_True.
    + by rewrite decide_False.
Qed.

Lemma dict_get_set_ne k k0 v d :
  k0 ≠ k → dict_get k0 (dict_set k v d) = dict_get k0 d.
Proof.
  intros Hne. induction d as [|[k' v'] d IH]; simpl.
  - by rewrite decide_False.
  - destruct (decide (k = k')) as [->|Hne']; simpl.
    + by rewrite !decide_False.
    + destruct (decide (k0 = k')); [done|apply IH].
Qed.

Lemma dict_get_Some_elem k v d : dict_get k d = Some v → (k, v) ∈ d.
Proof.
  induction d as [|[k' v'] d IH]; simpl; [done|].
  destruct (decide (k = k')) as [->|Hne].
  - intros [= ->]. apply list_elem_of_here.
  - intros H. apply list_elem_of_further, IH, H.
Qed.

Lemma dict_get_None_keys k d : dict_get k d = None ↔ k ∉ d.*1.
Proof.
  induction d as [|[k' v'] d IH]; simpl.
  - split; [intros _; apply not_elem_of_nil|done].
  - destruct (decide (k = k')) as [->|Hne].
    + split; [done|]. intros H. exfalso. apply H, list_elem_of_here.
    + rewrite IH, not_elem_of_cons. split; [by intros ?|by intros [_ ?]].
Qed.

Lemma dict_get_elem_NoDup k v d :
  NoDup d.*1 → (k, v) ∈ d → dict_get k d = Some v.
Proof.
  induction d as [|[k' v'] d IH]; simpl.
  - intros _ H. by apply elem_of_nil in H.
  - rewrite NoDup_cons. intros [Hnotin Hnd] Hel.
    apply elem_of_cons in Hel as [[= -> ->]|Hel].
    + by rewrite decide_True.
    + destruct (decide (k = k')) as [->|Hne]; [|by apply IH].
      exfalso. apply Hnotin. apply list_elem_of_fmap. by exists (k', v).
Qed.

Lemma dict_set_keys_present k v d :
  k ∈ d.*1 → (dict_set k v d).*1 = d.*1.
Proof.
  induction d as [|[k' v'] d IH]; simpl.
  - intros H. by apply elem_of_nil in H.
  - intros H. destruct (decide (k = k')) as [->|Hne]; simpl; [done|].
    f_equal. apply IH. apply elem_of_cons in H as [?|?]; [done|done].
Qed.

Lemma dict_set_keys_absent k v d :
  k ∉ d.*1 → (dict_set k v d).*1 = d.*1 ++ [k].
Proof.
  induction d as [|[k' v'] d IH]; simpl; [done|].
  rewrite not_elem_of_cons. intros [Hne Hnotin].
  rewrite decide_False by done. simpl. f_equal. by apply IH.
Qed.

Lemma dict_set_NoDup k v d : NoDup d.*1 → NoDup (dict_set k v d).*1.
Proof.
  intros Hnd. destruct (decide (k ∈ d.*1)) as [Hin|Hnotin].
  - by rewrite dict_set_keys_present.
  - rewrite dict_set_keys_absent by done.
    apply NoDup_app. split_and!; [done| |apply NoDup_singleton].
    intros x Hx Hx'. apply list_elem_of_singleton in Hx' as ->. done.
Qed.

Lemma dict_set_set k v1 v2 d :
  dict_set k v2 (dict_set k v1 d) = dict_set k v2 d.
Proof.
  induction d as [|[k' v'] d IH]; simpl.
  - by rewrite decide_True.
  - destruct (decide (k = k')) as [->|Hne]; simpl.
    + by rewrite decide_True.
    + rewrite decide_False by done. by rewrite IH.
Qed.

Lemma dict_get_is_Some_keys k d : is_Some (dict_get k d) ↔ k ∈ d.*1.
Proof.
  rewrite <-not_eq_None_Some, dict_get_None_keys.
  destruct (decide (k ∈ d.*1)); naive_solver.
Qed.

End dict_facts.

Lemma getitem_with_text_ne md res k :
  k ≠ "text_content" → getitem (with_text md res) k = getitem res k.
Proof.
  intros Hne. destruct res; simpl; try done.
  by rewrite dict_get_set_ne.
Qed.

Lemma getitem_with_text md d :
  getitem (with_text md (VDict d)) "text_content" = Ok (VStr md).
Proof. simpl. by rewrite dict_get_set_eq. Qed.

Lemma with_text_with_text md1 md2 res :
  with_text md2 (with_text md1 res) = with_text md2 res.
Proof. destruct res; simpl; try done. by rewrite dict_set_set. Qed.

Lemma link_key_with_text md res : link_key (with_text md res) = link_key res.
Proof. unfold link_key. by rewrite getitem_with_text_ne. Qed.

Lemma link_key_Ok_dict res u : link_key res = Ok u → ∃ d, res = VDict d.
Proof. destruct res; try done. eauto. Qed.

(** ** Search Client *)

Lemma dict_get_filter {K V} `{EqDecision K} (P : K * V → bool) k
    (d : list (K * V)) :
  NoDup d.*1 →
  dict_get k (List.filter P d)
  = match dict_get k d with
    | Some v => if P (k, v) then Some v else None
    | None => None
    end.
Proof.
  induction d as [|[k' v'] d IH]; simpl; [done|].
  rewrite NoDup_cons. intros [Hnotin Hnd].
  destruct (decide (k = k')) as [->|Hne].
  - destruct (P (k', v')) eqn:HP; simpl.
    + by rewrite decide_True.
    + rewrite IH by done.
      apply dict_get_None_keys in Hnotin. by rewrite Hnotin.
  - destruct (P (k', v')); simpl; [rewrite decide_False by done|]; by apply IH.
Qed.

Lemma keys_filter_subseteq {K V} (P : K * V → bool) (d : list (K * V)) k :
  k ∈ (List.filter P d).*1 → k ∈ d.*1.
Proof.
  rewrite !list_elem_of_fmap. intros ([k' v] & -> & Hin).
  exists (k', v). split; [done|].
  apply list_elem_of_In, filter_In in Hin as [Hin _]. by apply list_elem_of_In.
Qed.

Lemma NoDup_keys_filter {K V} (P : K * V → bool) (d : list (K * V)) :
  NoDup d.*1 → NoDup (List.filter P d).*1.
Proof.
  induction d as [|[k v] d IH]; simpl; [done|].
  rewrite NoDup_cons. intros [Hnotin Hnd].
  destruct (P (k, v)); simpl; [|by apply IH].
  apply NoDup_cons. split; [|by apply IH].
  intros Hin. by apply Hnotin, (keys_filter_subseteq P).
Qed.

(** Decides the tests [decide (k = k')] between string literals. *)
Ltac decide_keys :=
  repeat first [rewrite decide_True by done | rewrite decide_False by done].

Section search_facts.
Variable serp_api_key : option string.
Variable http_get_json : string → list (string * value) → Z → result value.

Lemma payload_unfold a :
  payload serp_api_key a
  = List.filter (λ kv, negb (is_VNone kv.2))
      (payload_literal serp_api_key a).
Proof. reflexivity. Qed.

Lemma payload_literal_keys a :
  (payload_literal serp_api_key a).*1
  = ["engine"; "q"; "api_key"] ++ optional_params.
Proof. reflexivity. Qed.

Lemma payload_literal_NoDup a : NoDup (payload_literal serp_api_key a).*1.
Proof.
  rewrite payload_literal_keys.
  apply (bool_decide_unpack _). by vm_compute.
Qed.

Lemma payload_get a k :
  dict_get k (payload serp_api_key a)
  = match dict_get k (payload_literal serp_api_key a) with
    | Some VNone | None => None
    | Some v => Some v
    end.
Proof.
  rewrite payload_unfold, dict_get_filter by apply payload_literal_NoDup.
  destruct (dict_get k (payload_literal serp_api_key a)) as [[]|]; done.
Qed.

Lemma opt_value_get {A} (f : A → value) (o : option A) :
  (∀ x, f x ≠ VNone) →
  match opt_value f o with
  | VNone => None
  | _ => Some (opt_value f o)
  end = f <$> o.
Proof.
  intros Hf. destruct o as [x|]; simpl; [|done].
  specialize (Hf x). by destruct (f x).
Qed.

(** C3. Whatever subset of the optional arguments of [search_light] is set,
    the parameter map of the outgoing request holds, for each optional
    parameter, exactly what the caller set: the value when the argument is
    set, no entry when it is not.  No entry of the map is [None], each key
    occurs once, and beside the optional parameters the map only holds
    [engine], [q] and the API key. *)
Theorem search_light_sends_exactly_set_params (a : Args.t) :
  ∃ params,
    (search_light serp_api_key http_get_json a).2
      = [EvGet serp_url params 10]
    ∧ (∀ k, k ∈ optional_params → dict_get k params = optional_arg a k)
    ∧ (∀ k v, (k, v) ∈ params → v ≠ VNone)
    ∧ NoDup params.*1
    ∧ (∀ k, k ∈ params.*1 →
         k ∈ ["engine"; "q"; "api_key"] ∨
         (k ∈ optional_params ∧ is_Some (optional_arg a k))).
Proof.
  exists (payload serp_api_key a). split_and!.
  - reflexivity.
  - intros k Hk. rewrite payload_get.
    unfold optional_params in Hk.
    repeat (apply elem_of_cons in Hk as [->|Hk]);
      [..|by apply elem_of_nil in Hk];
      unfold payload_literal, optional_arg; simpl dict_get; decide_keys;
      apply opt_value_get; by intros [].
  - intros k v Hin ->. rewrite payload_unfold in Hin.
    apply list_elem_of_In, filter_In in Hin as [_ Hin]. done.
  - rewrite payload_unfold.
    apply NoDup_keys_filter, payload_literal_NoDup.
  - intros k Hk.
    assert (is_Some (dict_get k (payload serp_api_key a))) as Hsome
      by by apply dict_get_is_Some_keys.
    rewrite payload_unfold in Hk.
    apply keys_filter_subseteq in Hk. rewrite payload_literal_keys in Hk.
    apply elem_of_app in Hk as [Hk|Hk]; [by left|right].
    split; [done|].
    rewrite payload_get in Hsome.
    unfold optional_params in Hk.
    repeat (apply elem_of_cons in Hk as [->|Hk]);
      [..|by apply elem_of_nil in Hk];
      unfold payload_literal, optional_arg in *; simpl dict_get in Hsome;
      revert Hsome; decide_keys;
      match goal with
      | |- _ → is_Some (_ <$> ?o) => destruct o; [by eexists|]
      end; simpl; by intros [? ?].
Qed.

(** C4. For every query [q] and every non-empty location [X], the query
    text of the outgoing request is [q + ", location: X"], and the request
    has no [location] parameter. *)
Theorem search_light_folds_location (a : Args.t) (X : string) :
  Args.location a = Some X → X ≠ "" →
  ∃ params,
    (search_light serp_api_key http_get_json a).2
      = [EvGet serp_url params 10]
    ∧ dict_get "q" params = Some (VStr (Args.q a +:+ ", location: " +:+ X))
    ∧ "location" ∉ params.*1.
Proof.
  intros Hloc HX. exists (payload serp_api_key a). split_and!.
  - reflexivity.
  - rewrite payload_get. unfold payload_literal. simpl dict_get. decide_keys.
    unfold query_text. rewrite Hloc. simpl.
    apply String.eqb_neq in HX. by rewrite HX.
  - intros Hin. rewrite payload_unfold in Hin.
    apply keys_filter_subseteq in Hin. rewrite payload_literal_keys in Hin.
    unfold optional_params in Hin.
    repeat (apply elem_of_cons in Hin as [Hin|Hin]; [discriminate Hin|]).
    by apply elem_of_nil in Hin.
Qed.

(** An empty location is falsy at line 70: the request is the one sent
    when no location is given. *)
Lemma payload_empty_location q safe nfpr flt start num device no_cache
    aasync zero_trace :
  payload serp_api_key
    (Args.mk q (Some "") safe nfpr flt start num device no_cache aasync
       zero_trace)
  = payload serp_api_key
      (Args.mk q None safe nfpr flt start num device no_cache aasync
         zero_trace).
Proof. reflexivity. Qed.

End search_facts.

Lemma search_light_folds_location_witness :
  ∃ params,
    (search_light (Some "KEY") (api_returns (VDict []))
       (Args.mk "weather today" (Some "Paris") None None None None None None
          None None None)).2
      = [EvGet serp_url params 10]
    ∧ dict_get "q" params = Some (VStr "weather today, location: Paris")
    ∧ "location" ∉ params.*1.
Proof.
  apply (search_light_folds_location (Some "KEY") (api_returns (VDict []))
           (Args.mk "weather today" (Some "Paris") None None None None None
              None None None None) "Paris").
  - reflexivity.
  - discriminate.
Defined.

(** ** Enrichment Orchestrator *)

(** *** The index built by lines 98-100 *)

Lemma last_carrier_None k rs :
  last_carrier k rs = None →
  ∀ j res, rs !! j = Some res → link_key res ≠ Ok k.
Proof.
  induction rs as [|r rs IH]; simpl; [done|].
  destruct (last_carrier k rs) eqn:Hl; [done|].
  intros Hr [|j] res; simpl.
  - intros [= ->] Hk. rewrite Hk in Hr. by rewrite decide_True in Hr.
  - by apply IH.
Qed.

Lemma last_carrier_Some k rs i :
  last_carrier k rs = Some i →
  ∃ res, rs !! i = Some res ∧ link_key res = Ok k
         ∧ ∀ j res', (i < j)%nat → rs !! j = Some res' → link_key res' ≠ Ok k.
Proof.
  revert i. induction rs as [|r rs IH]; intros i; simpl; [done|].
  destruct (last_carrier k rs) as [l|] eqn:Hl.
  - intros [= <-]. destruct (IH l eq_refl) as (res & Hres & Hk & Hlast).
    exists res. split_and!; [done..|].
    intros [|j] res' Hlt; [lia|]. simpl. apply Hlast. lia.
  - destruct (link_key r) as [k'|] eqn:Hr; [|done].
    destruct (decide (k' = k)) as [->|]; [|done].
    intros [= <-]. exists r. split_and!; [done..|].
    intros [|j] res' Hlt; [lia|]. simpl. by apply last_carrier_None.
Qed.

Lemma last_carrier_ge k rs i res :
  rs !! i = Some res → link_key res = Ok k →
  ∃ l, last_carrier k rs = Some l ∧ (i ≤ l)%nat.
Proof.
  intros Hi Hk. destruct (last_carrier k rs) as [l|] eqn:Hl.
  - exists l. split; [done|].
    destruct (last_carrier_Some _ _ _ Hl) as (_ & _ & _ & Hlast).
    destruct (decide (i ≤ l)%nat); [done|].
    exfalso. apply (Hlast i res); [lia|done..].
  - exfalso. by eapply last_carrier_None.
Qed.

Lemma index_links_lookup idx rs m m' k :
  index_links idx rs m = Ok m' →
  dict_get k m'
  = match last_carrier k rs with
    | Some j => Some (idx + j)%nat
    | None => dict_get k m
    end.
Proof.
  revert idx m. induction rs as [|r rs IH]; intros idx m; simpl.
  - by intros [= ->].
  - unfold link_key.
    destruct (getitem r "link") as [link|]; simpl; [|done].
    destruct (hash_key link) as [k0|]; simpl; [|done].
    intros Hrec. rewrite (IH _ _ Hrec).
    destruct (last_carrier k rs) as [j|]; [f_equal; lia|].
    destruct (decide (k0 = k)) as [->|Hne].
    + rewrite dict_get_set_eq. f_equal. lia.
    + by rewrite dict_get_set_ne.
Qed.

Lemma index_links_Ok idx rs m :
  Forall (λ res, is_Ok (link_key res) = true) rs →
  ∃ m', index_links idx rs m = Ok m'.
Proof.
  intros Hall. revert idx m.
  induction Hall as [|r rs Hr _ IH]; intros idx m; simpl; [by eexists|].
  unfold link_key in Hr.
  destruct (getitem r "link") as [link|]; simpl in *; [|done].
  destruct (hash_key link) as [k0|]; simpl in *; [|done].
  apply IH.
Qed.

(** The index maps a link to the last result carrying it. *)
Lemma url_to_idx_last_carrier rs url_to_idx k :
  index_links 0 rs [] = Ok url_to_idx →
  dict_get k url_to_idx = last_carrier k rs.
Proof.
  intros Hm. rewrite (index_links_lookup _ _ _ _ k Hm).
  by destruct (last_carrier k rs).
Qed.

Lemma url_to_idx_inj rs url_to_idx k k' i :
  index_links 0 rs [] = Ok url_to_idx →
  dict_get k url_to_idx = Some i → dict_get k' url_to_idx = Some i → k = k'.
Proof.
  intros Hm. rewrite !(url_to_idx_last_carrier _ _ _ Hm).
  intros (res & Hres & Hk & _)%last_carrier_Some
         (res' & Hres' & Hk' & _)%last_carrier_Some.
  congruence.
Qed.

(** *** The page loop of lines 105-115 *)

Section crawl_facts.
Variable dynamic_crawl_multi_urls :
  list key → Z → Z → result (list (key * string)).
Variable parse_html : string → result (list node).
Variable prettify : list node → result string.
Variable html2text : string → result string.

Local Abbreviation extract' := (extract parse_html prettify html2text).
Local Abbreviation attach' := (attach parse_html prettify html2text).
Local Abbreviation attach_all' := (attach_all parse_html prettify html2text).
Local Abbreviation crawl_all' :=
  (crawl_all dynamic_crawl_multi_urls parse_html prettify html2text).

(** One iteration either leaves the store alone or rewrites one slot. *)
Lemma attach_store m rs url page_source :
  (attach' m rs url page_source).1
  = match (extract' page_source).2, dict_get url m with
    | Ok markdown, Some idx =>
        match rs !! idx with
        | Some res => <[idx := with_text markdown res]> rs
        | None => rs
        end
    | _, _ => rs
    end.
Proof.
  unfold attach. destruct (extract' page_source) as [ps' [md|e]]; simpl; [|done].
  destruct (dict_get url m) as [idx|]; simpl; [|done].
  destruct (rs !! idx) as [res|] eqn:Hres; simpl; [|done].
  destruct res; simpl; try (by rewrite list_insert_id).
  done.
Qed.

Lemma attach_lookup m rs url page_source i :
  (attach' m rs url page_source).1 !! i
  = match (extract' page_source).2, dict_get url m with
    | Ok markdown, Some idx =>
        if decide (idx = i) then with_text markdown <$> rs !! i else rs !! i
    | _, _ => rs !! i
    end.
Proof.
  rewrite attach_store.
  destruct (extract' page_source).2 as [md|]; [|done].
  destruct (dict_get url m) as [idx|]; [|done].
  destruct (rs !! idx) as [res|] eqn:Hres.
  - destruct (decide (idx = i)) as [->|Hne].
    + rewrite list_lookup_insert_eq by by eapply lookup_lt_Some.
      by rewrite Hres.
    + by rewrite list_lookup_insert_ne.
  - destruct (decide (idx = i)) as [->|Hne]; [|done]. by rewrite Hres.
Qed.

Lemma attach_length m rs url page_source :
  length (attach' m rs url page_source).1 = length rs.
Proof.
  rewrite attach_store.
  destruct (extract' page_source).2; [|done].
  destruct (dict_get url m) as [idx|]; [|done].
  destruct (rs !! idx); [|done]. apply length_insert.
Qed.

Lemma attach_all_cons m url page_source pages rs :
  (attach_all' m ((url, page_source) :: pages) rs).1
  = (attach_all' m pages (attach' m rs url page_source).1).1.
Proof.
  simpl. destruct (attach' m rs url page_source) as [rs1 log1]. simpl.
  by destruct (attach_all' m pages rs1).
Qed.

Lemma attach_all_length m pages rs :
  length (attach_all' m pages rs).1 = length rs.
Proof.
  revert rs. induction pages as [|[url ps] pages IH]; intros rs; [done|].
  by rewrite attach_all_cons, IH, attach_length.
Qed.

(** Whatever the pages are, a slot is left alone or holds the result it
    held with [text_content] set. *)
Lemma attach_all_frame m pages rs i :
  (attach_all' m pages rs).1 !! i = rs !! i
  ∨ ∃ markdown, (attach_all' m pages rs).1 !! i = with_text markdown <$> rs !! i.
Proof.
  revert rs. induction pages as [|[url ps] pages IH]; intros rs; [by left|].
  rewrite attach_all_cons.
  destruct (IH (attach' m rs url ps).1) as [->|[md ->]];
    rewrite attach_lookup;
    destruct (extract' ps).2 as [md'|]; eauto;
    destruct (dict_get url m) as [idx|]; eauto;
    destruct (decide (idx = i)); eauto.
  right. exists md. destruct (rs !! i); simpl; [|done].
  by rewrite with_text_with_text.
Qed.

(** A slot no successfully extracted page points to is left alone. *)
Lemma attach_all_untouched m pages rs i :
  (∀ url ps markdown, (url, ps) ∈ pages → (extract' ps).2 = Ok markdown →
     dict_get url m ≠ Some i) →
  (attach_all' m pages rs).1 !! i = rs !! i.
Proof.
  revert rs. induction pages as [|[url ps] pages IH]; intros rs Hno; [done|].
  rewrite attach_all_cons, IH.
  - rewrite attach_lookup.
    destruct (extract' ps).2 as [md|] eqn:Hmd; [|done].
    destruct (dict_get url m) as [idx|] eqn:Hidx; [|done].
    destruct (decide (idx = i)) as [->|]; [|done].
    exfalso. eapply Hno; [apply list_elem_of_here|done..].
  - intros url' ps' md' Hin. apply Hno. by apply list_elem_of_further.
Qed.

(** The slot a successfully extracted page points to receives its text,
    when the dict of pages has one entry per key and the index is
    injective. *)
Lemma attach_all_touched m pages rs i url ps markdown :
  NoDup pages.*1 →
  (∀ k k' j, dict_get k m = Some j → dict_get k' m = Some j → k = k') →
  (url, ps) ∈ pages → (extract' ps).2 = Ok markdown →
  dict_get url m = Some i →
  (attach_all' m pages rs).1 !! i = with_text markdown <$> rs !! i.
Proof.
  intros Hnd Hinj Hin Hmd Hidx. revert rs Hnd Hin.
  induction pages as [|[url0 ps0] pages IH]; intros rs Hnd Hin.
  { by apply elem_of_nil in Hin. }
  simpl in Hnd. apply NoDup_cons in Hnd as [Hnotin Hnd].
  rewrite attach_all_cons.
  apply elem_of_cons in Hin as [[= <- <-]|Hin].
  - rewrite attach_all_untouched.
    + rewrite attach_lookup, Hmd, Hidx. by rewrite decide_True.
    + intros url' ps' md' Hin' _ Hidx'.
      apply Hnotin. rewrite (Hinj _ _ _ Hidx Hidx').
      apply list_elem_of_fmap. by exists (url', ps').
  - rewrite IH by done. rewrite attach_lookup.
    destruct (extract' ps0).2 as [md0|]; [|done].
    destruct (dict_get url0 m) as [idx0|] eqn:Hidx0; [|done].
    destruct (decide (idx0 = i)) as [->|]; [|done].
    exfalso. apply Hnotin. rewrite (Hinj _ _ _ Hidx0 Hidx).
    apply list_elem_of_fmap. by exists (url, ps).
Qed.

(** *** [crawl_all] as a whole *)

Lemma crawl_all_fetched rs total_time url_to_idx pages :
  rs ≠ [] →
  index_links 0 rs [] = Ok url_to_idx →
  dynamic_crawl_multi_urls url_to_idx.*1 0 total_time = Ok pages →
  crawl_all' rs total_time
  = (Ok (), (attach_all' url_to_idx pages rs).1,
     EvCrawl url_to_idx.*1 0 total_time
       :: (attach_all' url_to_idx pages rs).2).
Proof.
  intros Hne Hidx Hfetch. unfold crawl_all.
  destruct rs as [|r rs]; [done|]. cbn [truthy negb].
  rewrite Hidx. cbn zeta. rewrite Hfetch.
  by destruct (attach_all' url_to_idx pages (r :: rs)).
Qed.

Lemma crawl_all_frame rs total_time i :
  length (crawl_all' rs total_time).1.2 = length rs
  ∧ ((crawl_all' rs total_time).1.2 !! i = rs !! i
     ∨ ∃ markdown,
         (crawl_all' rs total_time).1.2 !! i = with_text markdown <$> rs !! i).
Proof.
  unfold crawl_all.
  destruct rs as [|r rs]; [by split; [|left]|]. cbn [truthy negb].
  destruct (index_links 0 (r :: rs) []) as [m|]; [|by split; [|left]].
  cbn zeta.
  destruct (dynamic_crawl_multi_urls m.*1 0 total_time) as [pages|];
    [|by split; [|left]].
  pose proof (attach_all_length m pages (r :: rs)) as Hlen.
  pose proof (attach_all_frame m pages (r :: rs) i) as Hframe.
  destruct (attach_all' m pages (r :: rs)) as [rs' log']. done.
Qed.

Lemma crawl_all_fetch_raises rs total_time url_to_idx e :
  rs ≠ [] →
  index_links 0 rs [] = Ok url_to_idx →
  dynamic_crawl_multi_urls url_to_idx.*1 0 total_time = Err e →
  crawl_all' rs total_time
  = (Err UnboundLocalError, rs,
     [EvCrawl url_to_idx.*1 0 total_time; EvLogError "unable to crawl"]).
Proof.
  intros Hne Hidx Hfetch. unfold crawl_all.
  destruct rs as [|r rs]; [done|]. cbn [truthy negb].
  rewrite Hidx. cbn zeta. by rewrite Hfetch.
Qed.

(** The slots of the store after a crawl that fetched [pages]. *)
Lemma crawl_all_slot rs total_time url_to_idx pages i res :
  rs ≠ [] →
  index_links 0 rs [] = Ok url_to_idx →
  dynamic_crawl_multi_urls url_to_idx.*1 0 total_time = Ok pages →
  NoDup pages.*1 →
  rs !! i = Some res →
  (∀ u ps markdown,
     last_carrier u rs = Some i → (u, ps) ∈ pages →
     (extract' ps).2 = Ok markdown →
     results_after (crawl_all' rs total_time) !! i
     = Some (with_text markdown res))
  ∧ ((∀ u ps markdown,
        last_carrier u rs = Some i → (u, ps) ∈ pages →
        (extract' ps).2 = Ok markdown → False) →
     results_after (crawl_all' rs total_time) !! i = Some res).
Proof.
  intros Hne Hidx Hfetch Hnd Hres.
  rewrite (crawl_all_fetched _ _ _ _ Hne Hidx Hfetch).
  unfold results_after. cbn [fst snd]. split.
  - intros u ps md Hlast Hin Hmd.
    rewrite (attach_all_touched url_to_idx pages rs i u ps md);
      [by rewrite Hres|done| |done|done|].
    + intros k k' j. by apply (url_to_idx_inj rs).
    + by rewrite (url_to_idx_last_carrier rs).
  - intros Hno. rewrite attach_all_untouched; [done|].
    intros u ps md Hin Hmd Hget. apply (Hno u ps md); [|done..].
    by rewrite <-(url_to_idx_last_carrier rs url_to_idx).
Qed.

End crawl_facts.

(** *** Properties of the orchestrator *)

Section crawl_properties.
Variable dynamic_crawl_multi_urls :
  list key → Z → Z → result (list (key * string)).
Variable parse_html : string → result (list node).
Variable prettify : list node → result string.
Variable html2text : string → result string.

Local Abbreviation extract' := (extract parse_html prettify html2text).
Local Abbreviation crawl_all' :=
  (crawl_all dynamic_crawl_multi_urls parse_html prettify html2text).

(** C6. For every sequence of N results, whatever the crawler pool and the
    extraction do, [crawl_all] leaves N results in the same order; each
    result is either untouched or is the same dict with [text_content] set,
    so every other field, and in particular [link], [title] and [snippet],
    is unchanged. *)
Theorem crawl_all_preserves_results (rs : list value) (total_time : Z) :
  let rs' := results_after (crawl_all' rs total_time) in
  length rs' = length rs
  ∧ ∀ i res, rs !! i = Some res →
      ∃ res', rs' !! i = Some res'
        ∧ (res' = res ∨ ∃ markdown, res' = with_text markdown res)
        ∧ (∀ k, k ≠ "text_content" → getitem res' k = getitem res k)
        ∧ getitem res' "link" = getitem res "link"
        ∧ getitem res' "title" = getitem res "title"
        ∧ getitem res' "snippet" = getitem res "snippet".
Proof.
  intros rs'. split.
  - apply (crawl_all_frame dynamic_crawl_multi_urls parse_html prettify
             html2text rs total_time 0).
  - intros i res Hres.
    destruct (crawl_all_frame dynamic_crawl_multi_urls parse_html prettify
                html2text rs total_time i) as [_ Hslot].
    fold (results_after (crawl_all' rs total_time)) in Hslot. fold rs' in Hslot.
    rewrite Hres in Hslot. destruct Hslot as [Hi|[md Hi]].
    + exists res. split_and!; eauto.
    + exists (with_text md res).
      split_and!; eauto using getitem_with_text_ne;
        by apply getitem_with_text_ne.
Qed.

(** C7, amended. When the crawl returns markup for the dict [pages], the call
    ends normally and a result is modified exactly when it is the last
    result carrying its link, that link is a key of [pages] and the
    extraction of its page succeeded; the modification sets [text_content]
    to the extracted text.  Every other result, and so every result whose
    link is not a key of [pages], is left unchanged. *)
Theorem crawl_all_partial_fetch (rs : list value) (total_time : Z)
    (url_to_idx : list (key * nat)) (pages : list (key * string)) :
  rs ≠ [] →
  index_links 0 rs [] = Ok url_to_idx →
  dynamic_crawl_multi_urls url_to_idx.*1 0 total_time = Ok pages →
  NoDup pages.*1 →
  let rs' := results_after (crawl_all' rs total_time) in
  outcome (crawl_all' rs total_time) = Ok ()
  ∧ ∀ i res, rs !! i = Some res →
      (∀ u ps markdown,
         last_carrier u rs = Some i → (u, ps) ∈ pages →
         (extract' ps).2 = Ok markdown →
         rs' !! i = Some (with_text markdown res))
      ∧ ((¬ ∃ u ps markdown,
            last_carrier u rs = Some i ∧ (u, ps) ∈ pages
            ∧ (extract' ps).2 = Ok markdown) →
         rs' !! i = Some res)
      ∧ (∀ u, link_key res = Ok u → u ∉ pages.*1 → rs' !! i = Some res).
Proof.
  intros Hne Hidx Hfetch Hnd rs'. split.
  { by rewrite (crawl_all_fetched _ _ _ _ _ _ _ _ Hne Hidx Hfetch). }
  intros i res Hres.
  destruct (crawl_all_slot dynamic_crawl_multi_urls parse_html prettify
              html2text rs total_time url_to_idx pages i res)
    as [Hyes Hno]; [done..|].
  split_and!.
  - done.
  - intros Hnone. apply Hno. intros u ps md ? ? ?. apply Hnone. eauto 10.
  - intros u Hu Hnotin. apply Hno. intros u' ps md Hlast Hin _.
    apply last_carrier_Some in Hlast as (res' & Hres' & Hu' & _).
    assert (u' = u) as -> by congruence.
    apply Hnotin, list_elem_of_fmap. by exists (u, ps).
Qed.

(** C2, amended. When two results carry the same link and that link is
    fetched and extracted, the last result carrying the link receives the
    extracted text as [text_content], and every other result carrying the
    link is left unchanged. *)
Theorem crawl_all_duplicate_links (rs : list value) (total_time : Z)
    (url_to_idx : list (key * nat)) (pages : list (key * string))
    (u : key) (ps markdown : string) (i j : nat) (res_i res_j : value) :
  index_links 0 rs [] = Ok url_to_idx →
  dynamic_crawl_multi_urls url_to_idx.*1 0 total_time = Ok pages →
  NoDup pages.*1 →
  (u, ps) ∈ pages → (extract' ps).2 = Ok markdown →
  (i < j)%nat →
  rs !! i = Some res_i → link_key res_i = Ok u →
  rs !! j = Some res_j → link_key res_j = Ok u →
  let rs' := results_after (crawl_all' rs total_time) in
  ∃ l res_l,
    last_carrier u rs = Some l ∧ (j ≤ l)%nat
    ∧ rs !! l = Some res_l ∧ link_key res_l = Ok u
    ∧ rs' !! l = Some (with_text markdown res_l)
    ∧ getitem (with_text markdown res_l) "text_content" = Ok (VStr markdown)
    ∧ rs' !! i = Some res_i
    ∧ ∀ n res_n, n ≠ l → rs !! n = Some res_n → link_key res_n = Ok u →
        rs' !! n = Some res_n.
Proof.
  intros Hidx Hfetch Hnd Hin Hmd Hlt Hi Hui Hj Huj rs'.
  assert (rs ≠ []) as Hne by (intros ->; done).
  destruct (last_carrier_ge u rs j res_j Hj Huj) as (l & Hl & Hjl).
  destruct (last_carrier_Some _ _ _ Hl) as (res_l & Hresl & Hul & _).
  assert (∀ n res_n, n ≠ l → rs !! n = Some res_n → link_key res_n = Ok u →
            rs' !! n = Some res_n) as Hothers.
  { intros n res_n Hnl Hn Hun.
    destruct (crawl_all_slot dynamic_crawl_multi_urls parse_html prettify
                html2text rs total_time url_to_idx pages n res_n)
      as [_ Hno]; [done..|].
    apply Hno. intros u' ps' md' Hlast _ _.
    pose proof Hlast as (r' & Hr' & Hu' & _)%last_carrier_Some.
    assert (u' = u) as -> by congruence. congruence. }
  exists l, res_l. split_and!; try done.
  - destruct (crawl_all_slot dynamic_crawl_multi_urls parse_html prettify
                html2text rs total_time url_to_idx pages l res_l)
      as [Hyes _]; [done..|].
    by apply (Hyes u ps).
  - apply link_key_Ok_dict in Hul as [d ->]. apply getitem_with_text.
  - apply Hothers; [lia|done..].
Qed.

End crawl_properties.

(** *** The orchestrator on concrete inputs *)

(** C1. With the crawler pool down, [crawl_all] on two results logs the
    failure and then ends by raising [UnboundLocalError] at line 105, the
    results being as they were; and the tool call that crawls ends with
    that exception. *)
Theorem crawl_all_pool_down_raises :
  crawl_all pool_down parse_as_text prettify_text html2text_id
    [result_a1; result_b] 8
  = (Err UnboundLocalError, [result_a1; result_b],
     [EvCrawl [KStr "https://a.example"; KStr "https://b.example"] 0 8;
      EvLogError "unable to crawl"])
  ∧ (llm_search (Some "KEY") (api_returns raw_response) pool_down
       parse_as_text prettify_text html2text_id "weather today" None None
       (Some true)).1
    = Err UnboundLocalError.
Proof. split; reflexivity. Qed.

(** C2, as stated, fails: of two results carrying the fetched and extracted
    link, the first one has no text. *)
Lemma duplicate_link_first_result_has_no_text :
  (extract parse_as_text prettify_text html2text_id "hello").2 = Ok "hello"
  ∧ ¬ all_carriers_have_text [result_a1; result_a2]
        (results_after
           (crawl_all (pool_returns page_a) parse_as_text prettify_text
              html2text_id [result_a1; result_a2] 8))
        (KStr "https://a.example") "hello".
Proof.
  split; [reflexivity|]. intros Hall.
  destruct (Hall 0%nat result_a1 eq_refl eq_refl) as (res' & Hres' & Htext).
  injection Hres' as <-. discriminate Htext.
Qed.

Lemma crawl_all_duplicate_links_witness :
  ∃ l res_l,
    last_carrier (KStr "https://a.example") [result_a1; result_a2; result_b]
      = Some l
    ∧ (1 ≤ l)%nat
    ∧ [result_a1; result_a2; result_b] !! l = Some res_l
    ∧ link_key res_l = Ok (KStr "https://a.example")
    ∧ results_after
        (crawl_all (pool_returns page_a) parse_as_text prettify_text
           html2text_id [result_a1; result_a2; result_b] 8) !! l
      = Some (with_text "hello" res_l)
    ∧ getitem (with_text "hello" res_l) "text_content" = Ok (VStr "hello")
    ∧ results_after
        (crawl_all (pool_returns page_a) parse_as_text prettify_text
           html2text_id [result_a1; result_a2; result_b] 8) !! 0%nat
      = Some result_a1
    ∧ ∀ n res_n, n ≠ l →
        [result_a1; result_a2; result_b] !! n = Some res_n →
        link_key res_n = Ok (KStr "https://a.example") →
        results_after
          (crawl_all (pool_returns page_a) parse_as_text prettify_text
             html2text_id [result_a1; result_a2; result_b] 8) !! n
        = Some res_n.
Proof.
  apply (crawl_all_duplicate_links (pool_returns page_a) parse_as_text
           prettify_text html2text_id [result_a1; result_a2; result_b] 8
           [(KStr "https://a.example", 1%nat); (KStr "https://b.example", 2%nat)]
           page_a (KStr "https://a.example") "hello" "hello" 0 1
           result_a1 result_a2).
  - reflexivity.
  - reflexivity.
  - apply NoDup_singleton.
  - apply list_elem_of_here.
  - reflexivity.
  - lia.
  - reflexivity.
  - reflexivity.
  - reflexivity.
  - reflexivity.
Defined.

(** C7, as stated, fails: the link of the first result is fetched and
    extracted, and the result carries no [text_content]. *)
Lemma fetched_link_result_without_text :
  ¬ fetched_carry_text
      (λ ps, (extract parse_as_text prettify_text html2text_id ps).2)
      page_a [result_a1; result_a2; result_b]
      (results_after
         (crawl_all (pool_returns page_a) parse_as_text prettify_text
            html2text_id [result_a1; result_a2; result_b] 8)).
Proof.
  intros Hclaim.
  destruct (Hclaim 0%nat result_a1 result_a1 eq_refl eq_refl) as [_ Hcarry].
  assert (is_Ok (getitem result_a1 "text_content") = true) as Hfalse;
    [|discriminate Hfalse].
  apply Hcarry. exists (KStr "https://a.example"), "hello", "hello".
  split_and!; [reflexivity|apply list_elem_of_here|reflexivity].
Qed.

Lemma crawl_all_partial_fetch_witness :
  outcome
    (crawl_all (pool_returns page_a) parse_as_text prettify_text html2text_id
       [result_a1; result_a2; result_b] 8) = Ok ()
  ∧ results_after
      (crawl_all (pool_returns page_a) parse_as_text prettify_text
         html2text_id [result_a1; result_a2; result_b] 8) !! 1%nat
    = Some (with_text "hello" result_a2)
  ∧ results_after
      (crawl_all (pool_returns page_a) parse_as_text prettify_text
         html2text_id [result_a1; result_a2; result_b] 8) !! 2%nat
    = Some result_b.
Proof.
  destruct (crawl_all_partial_fetch (pool_returns page_a) parse_as_text
              prettify_text html2text_id [result_a1; result_a2; result_b] 8
              [(KStr "https://a.example", 1%nat);
               (KStr "https://b.example", 2%nat)]
              page_a)
    as [Hout Hslots].
  - discriminate.
  - reflexivity.
  - reflexivity.
  - apply NoDup_singleton.
  - split; [exact Hout|]. split.
    + destruct (Hslots 1%nat result_a2 eq_refl) as [Hyes _].
      apply (Hyes (KStr "https://a.example") "hello" "hello").
      * reflexivity.
      * apply list_elem_of_here.
      * reflexivity.
    + destruct (Hslots 2%nat result_b eq_refl) as (_ & _ & Habsent).
      apply (Habsent (KStr "https://b.example")).
      * reflexivity.
      * intros Hin. apply list_elem_of_singleton in Hin. discriminate Hin.
Defined.

(** ** Tool Entry Point *)

Lemma keys_filter_iff {K V} (P : K * V → bool) (d : list (K * V)) k :
  (∀ v v', P (k, v) = P (k, v')) →
  k ∈ (List.filter P d).*1 ↔ k ∈ d.*1 ∧ ∃ v, (k, v) ∈ d ∧ P (k, v) = true.
Proof.
  intros HP. rewrite !list_elem_of_fmap. split.
  - intros ([k' v] & -> & Hin).
    apply list_elem_of_In, filter_In in Hin as [Hin Hp].
    apply list_elem_of_In in Hin. split; [by exists (k', v)|by exists v].
  - intros [_ (v & Hin & Hp)]. exists (k, v). split; [done|].
    apply list_elem_of_In, filter_In. split; [by apply list_elem_of_In|done].
Qed.

Lemma trim_keys d out k :
  trim (VDict d) = Ok out →
  k ∈ out.*1 ↔ k ∈ d.*1 ∧ k ∈ ["answer_box"; "organic_results"].
Proof.
  intros [= <-]. rewrite keys_filter_iff by done. simpl. split.
  - intros [Hin (v & _ & Hp)]. split; [done|].
    by apply bool_decide_eq_true in Hp.
  - intros [Hin Hk]. split; [done|].
    apply list_elem_of_fmap in Hin as ([k' v] & -> & Hin).
    exists v. split; [done|]. by apply bool_decide_eq_true.
Qed.

Section tool_facts.
Variable serp_api_key : option string.
Variable http_get_json : string → list (string * value) → Z → result value.
Variable dynamic_crawl_multi_urls :
  list key → Z → Z → result (list (key * string)).
Variable parse_html : string → result (list node).
Variable prettify : list node → result string.
Variable html2text : string → result string.

Local Abbreviation llm_search' :=
  (llm_search serp_api_key http_get_json dynamic_crawl_multi_urls parse_html
     prettify html2text).

(** C5. Let the search API answer with the dict [d].  Whenever [llm_search]
    returns an object, with or without crawling, its keys are exactly those
    of [answer_box] and [organic_results] that [d] has; and without
    crawling it always returns one. *)
Theorem llm_search_returns_trimmed (query : string) (location : option string)
    (start : option Z) (crawl : option bool) (d : list (string * value)) :
  http_get_json serp_url
    (payload serp_api_key
       (Args.mk query location None None None start None None None None None))
    10 = Ok (VDict d) →
  (truthy (opt_value VBool crawl) = false →
   ∃ out, (llm_search' query location start crawl).1 = Ok out)
  ∧ (∀ out, (llm_search' query location start crawl).1 = Ok out →
       ∀ k, k ∈ out.*1 ↔ k ∈ d.*1 ∧ k ∈ ["answer_box"; "organic_results"]).
Proof.
  intros Hresp. unfold llm_search, search_light.
  cbn [fst snd]. rewrite Hresp.
  destruct (truthy (opt_value VBool crawl)); split; try done.
  - intros out. unfold getitem.
    destruct (dict_get "organic_results" d) as [organic|] eqn:Hget; [|done].
    destruct (crawl_all_value _ _ _ _ organic 8) as [[[[]|e] organic'] log'];
      [|done].
    cbn [fst write_back]. intros Htrim k.
    rewrite (trim_keys _ _ _ Htrim), dict_set_keys_present; [done|].
    apply dict_get_is_Some_keys. by rewrite Hget.
  - intros _. by eexists.
  - intros out Htrim k. by apply trim_keys.
Qed.

(** A crawl that ends normally lets the tool call return. *)
Lemma llm_search_after_crawl query location start d rs :
  http_get_json serp_url
    (payload serp_api_key
       (Args.mk query location None None None start None None None None None))
    10 = Ok (VDict d) →
  dict_get "organic_results" d = Some (VList rs) →
  outcome
    (crawl_all dynamic_crawl_multi_urls parse_html prettify html2text rs 8)
  = Ok () →
  ∃ out, (llm_search' query location start (Some true)).1 = Ok out.
Proof.
  intros Hresp Hget Hout. unfold llm_search, search_light.
  cbn [fst snd]. rewrite Hresp. cbn [opt_value truthy].
  unfold getitem. rewrite Hget. unfold crawl_all_value.
  destruct (crawl_all _ _ _ _ rs 8) as [[r rs'] log].
  unfold outcome in Hout. simpl in Hout. subst r. by eexists.
Qed.

(** C8, amended. When the extraction of one fetched page raises,
    [crawl_all] still ends normally; the results carrying that page's link
    are left unchanged; every other fetched page whose extraction succeeds
    has its text set on the last result carrying its link; a result that is
    not the last one carrying its link is left unchanged, whatever happened
    to the page of that link; and a tool call crawling these results
    returns an object. *)
Theorem crawl_all_isolates_extraction_failure (rs : list value)
    (total_time : Z) (url_to_idx : list (key * nat))
    (pages : list (key * string)) (u : key) (ps : string) (e : exn) :
  rs ≠ [] →
  index_links 0 rs [] = Ok url_to_idx →
  dynamic_crawl_multi_urls url_to_idx.*1 0 total_time = Ok pages →
  NoDup pages.*1 →
  (u, ps) ∈ pages →
  (extract parse_html prettify html2text ps).2 = Err e →
  let rs' :=
    results_after
      (crawl_all dynamic_crawl_multi_urls parse_html prettify html2text rs
         total_time) in
  outcome
    (crawl_all dynamic_crawl_multi_urls parse_html prettify html2text rs
       total_time) = Ok ()
  ∧ (∀ i res, rs !! i = Some res → link_key res = Ok u →
       rs' !! i = Some res)
  ∧ (∀ u' ps' markdown i res,
       (u', ps') ∈ pages →
       (extract parse_html prettify html2text ps').2 = Ok markdown →
       last_carrier u' rs = Some i → rs !! i = Some res →
       rs' !! i = Some (with_text markdown res)
       ∧ getitem (with_text markdown res) "text_content"
         = Ok (VStr markdown))
  ∧ (∀ u' i res,
       rs !! i = Some res → link_key res = Ok u' →
       last_carrier u' rs ≠ Some i →
       rs' !! i = Some res)
  ∧ (∀ query location start d,
       total_time = 8 →
       http_get_json serp_url
         (payload serp_api_key
            (Args.mk query location None None None start None None None None
               None))
         10 = Ok (VDict d) →
       dict_get "organic_results" d = Some (VList rs) →
       ∃ out, (llm_search' query location start (Some true)).1 = Ok out).
Proof.
  intros Hne Hidx Hfetch Hnd Hin Hfail rs'.
  assert (outcome
            (crawl_all dynamic_crawl_multi_urls parse_html prettify html2text
               rs total_time) = Ok ()) as Hout
    by by rewrite (crawl_all_fetched _ _ _ _ _ _ _ _ Hne Hidx Hfetch).
  split_and!.
  - done.
  - intros i res Hres Hu.
    destruct (crawl_all_slot dynamic_crawl_multi_urls parse_html prettify
                html2text rs total_time url_to_idx pages i res)
      as [_ Hno]; [done..|].
    apply Hno. intros u' ps' md' Hlast Hin' Hmd'.
    apply last_carrier_Some in Hlast as (res' & Hres' & Hu' & _).
    assert (u' = u) as -> by congruence.
    assert (ps' = ps) as ->.
    { apply (dict_get_elem_NoDup _ _ _ Hnd) in Hin, Hin'. congruence. }
    congruence.
  - intros u' ps' md i res Hin' Hmd Hlast Hres.
    destruct (crawl_all_slot dynamic_crawl_multi_urls parse_html prettify
                html2text rs total_time url_to_idx pages i res)
      as [Hyes _]; [done..|].
    split; [by apply (Hyes u' ps')|].
    apply last_carrier_Some in Hlast as (res' & Hres' & Hu' & _).
    assert (res' = res) as -> by congruence.
    apply link_key_Ok_dict in Hu' as [d ->]. apply getitem_with_text.
  - intros u' i res Hres Hu' Hnotlast.
    destruct (crawl_all_slot dynamic_crawl_multi_urls parse_html prettify
                html2text rs total_time url_to_idx pages i res)
      as [_ Hno]; [done..|].
    apply Hno. intros u0 ps0 md0 Hlast _ _.
    pose proof Hlast as (res0 & Hres0 & Hu0 & _)%last_carrier_Some.
    assert (u0 = u') as -> by congruence. done.
  - intros query location start d -> Hresp Hget.
    by apply (llm_search_after_crawl query location start d rs).
Qed.

End tool_facts.

(** C8, as stated, fails: the page of the second link is the one whose
    extraction raises, and still the first result, whose own page was
    fetched and extracted, has no text. *)
Lemma extraction_failure_not_the_only_missing_text :
  (extract parse_rejecting_world prettify_text html2text_id "world").2
  = Err (Raised "ParserRejectedMarkup")
  ∧ (extract parse_rejecting_world prettify_text html2text_id "hello").2
    = Ok "hello"
  ∧ ¬ only_failed_page_lacks_text
        (λ ps, (extract parse_rejecting_world prettify_text html2text_id ps).2)
        page_a_and_b (KStr "https://b.example")
        [result_a1; result_a2; result_b]
        (results_after
           (crawl_all (pool_returns page_a_and_b) parse_rejecting_world
              prettify_text html2text_id [result_a1; result_a2; result_b] 8)).
Proof.
  split; [reflexivity|]. split; [reflexivity|]. intros Hclaim.
  assert (getitem result_a1 "text_content" = Ok (VStr "hello")) as Hfalse;
    [|discriminate Hfalse].
  apply (Hclaim 0%nat result_a1 result_a1 (KStr "https://a.example") "hello"
           "hello").
  - reflexivity.
  - reflexivity.
  - reflexivity.
  - discriminate.
  - apply list_elem_of_here.
  - reflexivity.
Qed.

Lemma crawl_all_isolates_extraction_failure_witness :
  outcome
    (crawl_all (pool_returns page_a_and_b) parse_rejecting_world
       prettify_text html2text_id [result_a1; result_a2; result_b] 8) = Ok ()
  ∧ results_after
      (crawl_all (pool_returns page_a_and_b) parse_rejecting_world
         prettify_text html2text_id [result_a1; result_a2; result_b] 8)
      !! 2%nat
    = Some result_b
  ∧ results_after
      (crawl_all (pool_returns page_a_and_b) parse_rejecting_world
         prettify_text html2text_id [result_a1; result_a2; result_b] 8)
      !! 1%nat
    = Some (with_text "hello" result_a2)
  ∧ results_after
      (crawl_all (pool_returns page_a_and_b) parse_rejecting_world
         prettify_text html2text_id [result_a1; result_a2; result_b] 8)
      !! 0%nat
    = Some result_a1
  ∧ ∃ out,
      (llm_search (Some "KEY") (api_returns raw_response_shared_link)
         (pool_returns page_a_and_b) parse_rejecting_world prettify_text
         html2text_id "weather today" None None (Some true)).1 = Ok out.
Proof.
  destruct (crawl_all_isolates_extraction_failure (Some "KEY")
              (api_returns raw_response_shared_link)
              (pool_returns page_a_and_b) parse_rejecting_world prettify_text
              html2text_id [result_a1; result_a2; result_b] 8
              [(KStr "https://a.example", 1%nat);
               (KStr "https://b.example", 2%nat)]
              page_a_and_b (KStr "https://b.example") "world"
              (Raised "ParserRejectedMarkup"))
    as (Hout & Hfailed & Hothers & Hearlier & Htool).
  - discriminate.
  - reflexivity.
  - reflexivity.
  - apply (bool_decide_unpack _). vm_compute. exact I.
  - apply list_elem_of_further, list_elem_of_here.
  - reflexivity.
  - split; [exact Hout|]. split; [|split; [|split]].
    + apply (Hfailed 2%nat result_b); reflexivity.
    + apply (Hothers (KStr "https://a.example") "hello" "hello" 1%nat
               result_a2).
      * apply list_elem_of_here.
      * reflexivity.
      * reflexivity.
      * reflexivity.
    + apply (Hearlier (KStr "https://a.example") 0%nat result_a1).
      * reflexivity.
      * reflexivity.
      * discriminate.
    + apply (Htool "weather today" None None
               [("search_metadata", VDict [("status", VStr "Success")]);
                ("organic_results",
                 VList [result_a1; result_a2; result_b])]);
        reflexivity.
Defined.

Lemma llm_search_returns_trimmed_witness :
  ∃ out,
    (llm_search (Some "KEY") (api_returns raw_response)
       (pool_returns page_a) parse_as_text prettify_text html2text_id
       "weather today" None None (Some true)).1 = Ok out
    ∧ "organic_results" ∈ out.*1
    ∧ "answer_box" ∈ out.*1
    ∧ "search_metadata" ∉ out.*1.
Proof.
  eexists. split; [reflexivity|].
  destruct (llm_search_returns_trimmed (Some "KEY") (api_returns raw_response)
              (pool_returns page_a) parse_as_text prettify_text html2text_id
              "weather today" None None (Some true)
              [("search_metadata", VDict [("status", VStr "Success")]);
               ("answer_box", VDict [("type", VStr "weather_result")]);
               ("organic_results", VList [result_a1; result_b])]
              eq_refl) as [_ Hkeys].
  split_and!.
  - apply (Hkeys _ eq_refl). split.
    + apply list_elem_of_further, list_elem_of_further, list_elem_of_here.
    + apply list_elem_of_further, list_elem_of_here.
  - apply (Hkeys _ eq_refl). split.
    + apply list_elem_of_further, list_elem_of_here.
    + apply list_elem_of_here.
  - intros Hin. apply (Hkeys _ eq_refl) in Hin as [_ Hin].
    apply elem_of_cons in Hin as [Hin|Hin]; [discriminate Hin|].
    apply list_elem_of_singleton in Hin. discriminate Hin.
Defined.

(** ** Early exits *)

(** C10. On an empty sequence [crawl_all] returns at once: no event is
    recorded, so the crawler pool is not called.  With an empty location,
    [search_light] sends the query text as given, in the very request it
    sends when no location is passed. *)
Theorem empty_inputs_skip_the_work
    (dynamic_crawl_multi_urls : list key → Z → Z → result (list (key * string)))
    (parse_html : string → result (list node))
    (prettify : list node → result string)
    (html2text : string → result string) (total_time : Z)
    (serp_api_key : option string)
    (http_get_json : string → list (string * value) → Z → result value)
    (q : string) (safe : option safe_level) (nfpr flt : option bit01)
    (start num : option Z) (device : option device_kind)
    (no_cache aasync zero_trace : option bool) :
  crawl_all dynamic_crawl_multi_urls parse_html prettify html2text []
    total_time = (Ok (), [], [])
  ∧ query_text q (Some "") = q
  ∧ (search_light serp_api_key http_get_json
       (Args.mk q (Some "") safe nfpr flt start num device no_cache aasync
          zero_trace)).2
    = (search_light serp_api_key http_get_json
         (Args.mk q None safe nfpr flt start num device no_cache aasync
            zero_trace)).2
  ∧ dict_get "q"
      (payload serp_api_key
         (Args.mk q (Some "") safe nfpr flt start num device no_cache aasync
            zero_trace))
    = Some (VStr q).
Proof.
  split_and!; reflexivity.
Qed.

(** ** Content Extractor *)

(** After the loop of lines 108-109 no tag named in [names] is left in
    the tree. *)
Lemma decompose_matching_clean names n :
  Forall (λ n', occurs names n' = false) (decompose_matching names n).
Proof.
  revert n. fix IH 1. intros [s|name attrs contents]; simpl.
  - by constructor.
  - destruct (bool_decide (name ∈ names)) eqn:Hname; [constructor|].
    constructor; [|constructor]. simpl. rewrite Hname. simpl.
    induction contents as [|c contents IHc]; simpl; [done|].
    rewrite existsb_app, IHc, orb_false_r.
    specialize (IH c). induction IH as [|n' ns Hn' _ IHns]; simpl; [done|].
    by rewrite Hn', IHns.
Qed.

Lemma decompose_all_clean names soup :
  Forall (λ n, occurs names n = false) (decompose_all names soup).
Proof.
  unfold decompose_all. induction soup as [|n soup IH]; simpl; [constructor|].
  apply Forall_app. split; [apply decompose_matching_clean|done].
Qed.

(** Whenever the extraction of lines 107-111 yields text, the converter was
    run on the serialization of a tree without denylisted tags. *)
Lemma extract_converts_clean_tree parse_html prettify html2text page_source
    markdown :
  (extract parse_html prettify html2text page_source).2 = Ok markdown →
  ∃ soup markup,
    parse_html page_source = Ok soup
    ∧ Forall (λ n, occurs denylist n = false) (decompose_all denylist soup)
    ∧ prettify (decompose_all denylist soup) = Ok markup
    ∧ html2text markup = Ok markdown.
Proof.
  unfold extract. destruct (parse_html page_source) as [soup|]; [|done].
  destruct (prettify (decompose_all denylist soup)) as [markup|] eqn:Hp;
    [|done].
  simpl. intros Hmd. exists soup, markup.
  split_and!; [done|apply decompose_all_clean|done..].
Qed.

(** * Further properties *)

(** ** Search Client: shape of the request *)

Lemma keys_filter_sublist {K V} (P : K * V → bool) (d : list (K * V)) :
  (List.filter P d).*1 `sublist_of` d.*1.
Proof.
  induction d as [|[k v] d IH]; simpl; [done|].
  destruct (P (k, v)); simpl; [by apply sublist_skip|by apply sublist_cons].
Qed.

(** Membership in a list of literals. *)
Ltac in_list :=
  repeat first [apply list_elem_of_here | apply list_elem_of_further].

Section request_shape.
Variable serp_api_key : option string.
Variable http_get_json : string → list (string * value) → Z → result value.

Lemma payload_get_optional a k :
  k ∈ optional_params → dict_get k (payload serp_api_key a) = optional_arg a k.
Proof.
  intros Hk. rewrite payload_get. unfold optional_params in Hk.
  repeat (apply elem_of_cons in Hk as [->|Hk]);
    [..|by apply elem_of_nil in Hk];
    unfold payload_literal, optional_arg; simpl dict_get; decide_keys;
    apply opt_value_get; by intros [].
Qed.

Lemma payload_get_q a :
  dict_get "q" (payload serp_api_key a)
  = Some (VStr (query_text (Args.q a) (Args.location a))).
Proof.
  rewrite payload_get. unfold payload_literal. simpl dict_get. by decide_keys.
Qed.

(** The request always opens with the engine and the query text, in that
    order; what follows keeps the order of the dict literal. *)
Theorem payload_opens_with_engine_and_query (a : Args.t) :
  ∃ rest,
    payload serp_api_key a
    = ("engine", VStr "google_light")
        :: ("q", VStr (query_text (Args.q a) (Args.location a))) :: rest
    ∧ rest.*1 `sublist_of` ("api_key" :: optional_params)
    ∧ (2 ≤ length (payload serp_api_key a) ≤ 12)%nat.
Proof.
  exists (List.filter (λ kv, negb (is_VNone kv.2))
            (drop 2 (payload_literal serp_api_key a))).
  split; [reflexivity|]. split.
  - exact (keys_filter_sublist (λ kv, negb (is_VNone kv.2))
             (drop 2 (payload_literal serp_api_key a))).
  - pose proof (keys_filter_sublist (λ kv : string * value, negb (is_VNone kv.2))
                  (payload_literal serp_api_key a)) as Hsub.
    apply sublist_length in Hsub. rewrite !length_fmap in Hsub.
    fold (payload serp_api_key a) in Hsub.
    split; [|exact Hsub].
    unfold payload, payload_literal. simpl. lia.
Qed.

(** A location folded into the query cannot be told from a query that
    already ends with the same words: both calls send the same request. *)
Theorem payload_location_is_part_of_query (q X : string)
    (safe : option safe_level) (nfpr flt : option bit01) (start num : option Z)
    (device : option device_kind) (no_cache aasync zero_trace : option bool) :
  X ≠ "" →
  search_light serp_api_key http_get_json
    (Args.mk q (Some X) safe nfpr flt start num device no_cache aasync
       zero_trace)
  = search_light serp_api_key http_get_json
      (Args.mk (q +:+ ", location: " +:+ X) None safe nfpr flt start num
         device no_cache aasync zero_trace).
Proof.
  intros HX. unfold search_light, payload, payload_literal, query_text.
  cbn [Args.q Args.location opt_value truthy default].
  apply String.eqb_neq in HX. by rewrite HX.
Qed.

(** Two calls that send the same request agree on the query text sent and
    on every optional argument: the request determines them. *)
Theorem payload_determines_arguments (a a' : Args.t) :
  payload serp_api_key a = payload serp_api_key a' →
  query_text (Args.q a) (Args.location a)
  = query_text (Args.q a') (Args.location a')
  ∧ Args.safe a = Args.safe a' ∧ Args.nfpr a = Args.nfpr a'
  ∧ Args.filter a = Args.filter a' ∧ Args.start a = Args.start a'
  ∧ Args.num a = Args.num a' ∧ Args.device a = Args.device a'
  ∧ Args.no_cache a = Args.no_cache a' ∧ Args.aasync a = Args.aasync a'
  ∧ Args.zero_trace a = Args.zero_trace a'.
Proof.
  intros Heq.
  assert (∀ k, k ∈ optional_params → optional_arg a k = optional_arg a' k)
    as Hopt.
  { intros k Hk. by rewrite <-!payload_get_optional, Heq. }
  assert (∀ {A} (f : A → value) (o o' : option A),
            (∀ x y, f x = f y → x = y) → f <$> o = f <$> o' → o = o')
    as Hinj.
  { intros A f [x|] [y|] Hf; simpl; try done. intros [= H]. f_equal. auto. }
  split_and!.
  - pose proof (payload_get_q a) as Hq. rewrite Heq, payload_get_q in Hq.
    by injection Hq.
  - apply (Hinj _ safe_value); [by intros [] []|].
    apply (Hopt "safe"). unfold optional_params. in_list.
  - apply (Hinj _ bit_value); [by intros [] []|].
    apply (Hopt "nfpr"). unfold optional_params. in_list.
  - apply (Hinj _ bit_value); [by intros [] []|].
    apply (Hopt "filter"). unfold optional_params. in_list.
  - apply (Hinj _ VInt); [by intros ? ? [=]|].
    apply (Hopt "start"). unfold optional_params. in_list.
  - apply (Hinj _ VInt); [by intros ? ? [=]|].
    apply (Hopt "num"). unfold optional_params. in_list.
  - apply (Hinj _ device_value); [by intros [] []|].
    apply (Hopt "device"). unfold optional_params. in_list.
  - apply (Hinj _ VBool); [by intros ? ? [=]|].
    apply (Hopt "no_cache"). unfold optional_params. in_list.
  - apply (Hinj _ VBool); [by intros ? ? [=]|].
    apply (Hopt "async"). unfold optional_params. in_list.
  - apply (Hinj _ VBool); [by intros ? ? [=]|].
    apply (Hopt "zero_trace"). unfold optional_params. in_list.
Qed.

End request_shape.

(** ** Enrichment Orchestrator: the index and the call of the pool *)

Lemma index_links_cons idx r rs m :
  index_links idx (r :: rs) m
  = (k ← link_key r; index_links (S idx) rs (dict_set k idx m)).
Proof. simpl. unfold link_key. by destruct (getitem r "link"). Qed.

Lemma index_links_NoDup idx rs m m' :
  index_links idx rs m = Ok m' → NoDup m.*1 → NoDup m'.*1.
Proof.
  revert idx m. induction rs as [|r rs IH]; intros idx m.
  - by intros [= ->].
  - rewrite index_links_cons. destruct (link_key r) as [k|]; simpl; [|done].
    intros Hrec Hnd. eapply IH; [done|]. by apply dict_set_NoDup.
Qed.

Lemma index_links_first_error idx pre r post m e :
  Forall (λ res, is_Ok (link_key res) = true) pre →
  link_key r = Err e →
  index_links idx (pre ++ r :: post) m = Err e.
Proof.
  intros Hpre Hr. revert idx m.
  induction Hpre as [|r0 pre Hr0 _ IH]; intros idx m.
  - simpl app. rewrite index_links_cons. by rewrite Hr.
  - simpl app. rewrite index_links_cons.
    destruct (link_key r0); [|done]. simpl. apply IH.
Qed.

Lemma index_links_ext idx rs rs' m :
  Forall2 (λ r r', link_key r = link_key r') rs rs' →
  index_links idx rs m = index_links idx rs' m.
Proof.
  intros Hall. revert idx m.
  induction Hall as [|r r' rs rs' Hr _ IH]; intros idx m; [done|].
  rewrite !index_links_cons, Hr.
  destruct (link_key r'); simpl; [apply IH|done].
Qed.

Lemma carried_links rs url_to_idx u :
  index_links 0 rs [] = Ok url_to_idx →
  u ∈ url_to_idx.*1 ↔ ∃ i res, rs !! i = Some res ∧ link_key res = Ok u.
Proof.
  intros Hidx.
  rewrite <-dict_get_is_Some_keys, (url_to_idx_last_carrier _ _ _ Hidx).
  split.
  - intros [i Hi]. apply last_carrier_Some in Hi as (res & ? & ? & _). eauto.
  - intros (i & res & Hres & Hu).
    destruct (last_carrier_ge _ _ _ _ Hres Hu) as (l & -> & _). by eexists.
Qed.

Lemma crawls_warnings log :
  Forall (λ ev, is_warning ev = true) log → crawls log = [].
Proof.
  induction 1 as [|ev log Hev _ IH]; [done|].
  by destruct ev.
Qed.

Section pool_call.
Variable dynamic_crawl_multi_urls :
  list key → Z → Z → result (list (key * string)).
Variable parse_html : string → result (list node).
Variable prettify : list node → result string.
Variable html2text : string → result string.

Local Abbreviation attach' := (attach parse_html prettify html2text).
Local Abbreviation attach_all' := (attach_all parse_html prettify html2text).
Local Abbreviation crawl_all' :=
  (crawl_all dynamic_crawl_multi_urls parse_html prettify html2text).

Lemma attach_log_warnings m rs url ps :
  Forall (λ ev, is_warning ev = true) (attach' m rs url ps).2.
Proof.
  unfold attach. destruct (extract _ _ _ ps) as [ps' md].
  match goal with |- context [match ?x with Ok _ => _ | Err _ => _ end] =>
    destruct x end; simpl; by repeat constructor.
Qed.

Lemma attach_all_log_warnings m pages rs :
  Forall (λ ev, is_warning ev = true) (attach_all' m pages rs).2.
Proof.
  revert rs. induction pages as [|[url ps] pages IH]; intros rs; simpl.
  - constructor.
  - pose proof (attach_log_warnings m rs url ps) as Hone.
    destruct (attach' m rs url ps) as [rs1 log1].
    specialize (IH rs1). destruct (attach_all' m pages rs1) as [rs2 log2].
    simpl in *. by apply Forall_app.
Qed.

(** A result without a usable link makes [crawl_all] raise the error of
    the first such result at line 100: nothing was fetched, logged or
    changed. *)
Theorem crawl_all_unusable_link_raises (pre post : list value) (r : value)
    (e : exn) (total_time : Z) :
  Forall (λ res, is_Ok (link_key res) = true) pre →
  link_key r = Err e →
  crawl_all' (pre ++ r :: post) total_time = (Err e, pre ++ r :: post, []).
Proof.
  intros Hpre Hr. unfold crawl_all.
  rewrite (index_links_first_error 0 pre r post [] e Hpre Hr).
  by destruct pre.
Qed.

(** When every result has a usable link, the pool is called exactly once,
    with a settle delay of 0 and the caller's budget, on a list holding
    each link carried by a result exactly once. *)
Theorem crawl_all_calls_pool_once (rs : list value) (total_time : Z) :
  rs ≠ [] →
  Forall (λ res, is_Ok (link_key res) = true) rs →
  ∃ urls,
    crawls (events (crawl_all' rs total_time)) = [(urls, 0, total_time)]
    ∧ NoDup urls
    ∧ ∀ u, u ∈ urls ↔ ∃ i res, rs !! i = Some res ∧ link_key res = Ok u.
Proof.
  intros Hne Hall.
  destruct (index_links_Ok 0 rs [] Hall) as [m Hidx].
  exists m.*1. split_and!.
  - unfold crawl_all, events. destruct rs as [|r rs]; [done|].
    cbn [truthy negb]. rewrite Hidx. cbn zeta.
    destruct (dynamic_crawl_multi_urls m.*1 0 total_time) as [pages|].
    + pose proof (attach_all_log_warnings m pages (r :: rs)) as Hw.
      destruct (attach_all' m pages (r :: rs)) as [rs' log']. simpl in *.
      unfold crawls. simpl. fold (crawls log'). by rewrite crawls_warnings.
    + done.
  - eapply index_links_NoDup; [done|constructor].
  - intros u. by apply carried_links.
Qed.

End pool_call.

(** ** Enrichment Orchestrator: what the page loop leaves behind *)

Lemma index_links_indexed_dicts rs url_to_idx :
  index_links 0 rs [] = Ok url_to_idx → indexed_dicts url_to_idx rs.
Proof.
  intros Hidx u i Hu. rewrite (url_to_idx_last_carrier _ _ _ Hidx) in Hu.
  apply last_carrier_Some in Hu as (res & Hres & Hk & _).
  apply link_key_Ok_dict in Hk as [d ->]. eauto.
Qed.

Lemma slot_text_Some extracted m pages i markdown :
  slot_text extracted m pages i = Some markdown →
  ∃ u ps, (u, ps) ∈ pages ∧ extracted ps = Ok markdown
          ∧ dict_get u m = Some i.
Proof.
  induction pages as [|[url ps] pages IH]; simpl; [done|].
  destruct (slot_text extracted m pages i) as [md|].
  - intros [= <-]. destruct (IH eq_refl) as (u & ps' & Hin & ? & ?).
    exists u, ps'. split_and!; [by apply list_elem_of_further|done..].
  - destruct (extracted ps) as [md|] eqn:Hmd; [|done].
    destruct (dict_get url m) as [idx|] eqn:Hidx; [|done].
    destruct (decide (idx = i)) as [->|]; [|done].
    intros [= <-]. exists url, ps. split_and!; [apply list_elem_of_here|done..].
Qed.

Section page_loop.
Variable dynamic_crawl_multi_urls :
  list key → Z → Z → result (list (key * string)).
Variable parse_html : string → result (list node).
Variable prettify : list node → result string.
Variable html2text : string → result string.

Local Abbreviation extract' := (extract parse_html prettify html2text).
Local Abbreviation attach' := (attach parse_html prettify html2text).
Local Abbreviation attach_all' := (attach_all parse_html prettify html2text).
Local Abbreviation crawl_all' :=
  (crawl_all dynamic_crawl_multi_urls parse_html prettify html2text).

(** Every slot after the loop, whatever the pages are. *)
Lemma attach_all_slot m pages rs i :
  (attach_all' m pages rs).1 !! i
  = from_option with_text id (slot_text (λ ps, (extract' ps).2) m pages i)
      <$> rs !! i.
Proof.
  revert rs. induction pages as [|[url ps] pages IH]; intros rs.
  - simpl. by destruct (rs !! i).
  - rewrite attach_all_cons, IH, attach_lookup. simpl slot_text.
    destruct (slot_text _ m pages i) as [md'|]; simpl.
    + destruct (extract' ps).2 as [md|]; [|done].
      destruct (dict_get url m) as [idx|]; [|done].
      destruct (decide (idx = i)); [|done].
      destruct (rs !! i); simpl; [|done]. by rewrite with_text_with_text.
    + destruct (extract' ps).2 as [md|]; [|by destruct (rs !! i)].
      destruct (dict_get url m) as [idx|]; [|by destruct (rs !! i)].
      destruct (decide (idx = i)); by destruct (rs !! i).
Qed.

Lemma attach_indexed_dicts m rs url ps :
  indexed_dicts m rs → indexed_dicts m (attach' m rs url ps).1.
Proof.
  intros Hinv u i Hu. destruct (Hinv u i Hu) as [d Hd].
  rewrite attach_lookup, Hd.
  destruct (extract' ps).2; [|eauto].
  destruct (dict_get url m) as [idx|]; [|eauto].
  destruct (decide (idx = i)); simpl; eauto.
Qed.

Lemma attach_log m rs url ps :
  indexed_dicts m rs →
  (attach' m rs url ps).2 = page_log extract' m (url, ps).
Proof.
  intros Hinv. unfold attach, page_log. simpl.
  destruct (extract' ps) as [ps' [md|e]]; simpl; [|done].
  destruct (dict_get url m) as [idx|] eqn:Hidx; simpl; [|done].
  destruct (Hinv url idx Hidx) as [d ->]. done.
Qed.

Lemma attach_all_log m pages rs :
  indexed_dicts m rs →
  (attach_all' m pages rs).2 = concat (page_log extract' m <$> pages).
Proof.
  revert rs. induction pages as [|[url ps] pages IH]; intros rs Hinv; [done|].
  simpl. pose proof (attach_log m rs url ps Hinv) as Hlog.
  pose proof (attach_indexed_dicts m rs url ps Hinv) as Hinv'.
  destruct (attach' m rs url ps) as [rs1 log1]. simpl in *.
  specialize (IH rs1 Hinv'). destruct (attach_all' m pages rs1) as [rs2 log2].
  simpl in *. by rewrite Hlog, IH.
Qed.

Lemma page_log_unindexed m pages :
  (∀ u ps, (u, ps) ∈ pages → dict_get u m = None) →
  concat (page_log extract' m <$> pages)
  = (λ page, EvLogWarning
               ("fail parse page_source " +:+ (extract' page.2).1)) <$> pages.
Proof.
  induction pages as [|[u ps] pages IH]; intros Hnone; [done|].
  rewrite !fmap_cons. cbn [concat].
  rewrite IH by (intros; eapply Hnone; by apply list_elem_of_further).
  unfold page_log at 1. cbn [fst snd].
  rewrite (Hnone u ps) by apply list_elem_of_here.
  by destruct (extract' ps).2.
Qed.

(** After a crawl that fetched pages, the log holds the call of the pool
    and then one warning for each page whose extraction failed or whose URL
    no result carries, in the order of the response; the warning quotes the
    page source as rebound by line 110 when the failure came later. *)
Theorem crawl_all_logs_failed_pages (rs : list value) (total_time : Z)
    (url_to_idx : list (key * nat)) (pages : list (key * string)) :
  rs ≠ [] →
  index_links 0 rs [] = Ok url_to_idx →
  dynamic_crawl_multi_urls url_to_idx.*1 0 total_time = Ok pages →
  events (crawl_all' rs total_time)
  = EvCrawl url_to_idx.*1 0 total_time
      :: concat (page_log extract' url_to_idx <$> pages).
Proof.
  intros Hne Hidx Hfetch.
  rewrite (crawl_all_fetched _ _ _ _ _ _ _ _ Hne Hidx Hfetch).
  unfold events. cbn [snd]. f_equal.
  by apply attach_all_log, index_links_indexed_dicts.
Qed.

(** Pages for URLs that no result carries change nothing: the call ends
    normally with the results as they were, and each such page is logged. *)
Theorem crawl_all_ignores_unrequested_pages (rs : list value)
    (total_time : Z) (url_to_idx : list (key * nat))
    (pages : list (key * string)) :
  rs ≠ [] →
  index_links 0 rs [] = Ok url_to_idx →
  dynamic_crawl_multi_urls url_to_idx.*1 0 total_time = Ok pages →
  (∀ u ps i res, (u, ps) ∈ pages → rs !! i = Some res →
     link_key res ≠ Ok u) →
  crawl_all' rs total_time
  = (Ok (), rs,
     EvCrawl url_to_idx.*1 0 total_time
       :: ((λ page, EvLogWarning
                      ("fail parse page_source " +:+ (extract' page.2).1))
             <$> pages)).
Proof.
  intros Hne Hidx Hfetch Hstray.
  assert (∀ u ps, (u, ps) ∈ pages → dict_get u url_to_idx = None) as Hnone.
  { intros u ps Hin. apply dict_get_None_keys. intros Hu.
    apply (carried_links rs _ _ Hidx) in Hu as (i & res & Hres & Hk).
    by apply (Hstray u ps i res). }
  rewrite (crawl_all_fetched _ _ _ _ _ _ _ _ Hne Hidx Hfetch).
  f_equal; [f_equal|f_equal].
  - apply list_eq. intros i. apply attach_all_untouched.
    intros u ps md Hin _. by rewrite (Hnone u ps Hin).
  - rewrite attach_all_log by by apply index_links_indexed_dicts.
    by apply page_log_unindexed.
Qed.

(** A result that [crawl_all] changed holds the text extracted from a page
    fetched for its own link: text is never attached from another URL. *)
Theorem crawl_all_text_comes_from_own_page (rs : list value) (total_time : Z)
    (i : nat) (res res' : value) :
  rs !! i = Some res →
  results_after (crawl_all' rs total_time) !! i = Some res' →
  res' ≠ res →
  ∃ url_to_idx pages u ps markdown,
    index_links 0 rs [] = Ok url_to_idx
    ∧ dynamic_crawl_multi_urls url_to_idx.*1 0 total_time = Ok pages
    ∧ (u, ps) ∈ pages ∧ (extract' ps).2 = Ok markdown
    ∧ link_key res = Ok u
    ∧ res' = with_text markdown res.
Proof.
  intros Hres Hres' Hne. unfold results_after, crawl_all in Hres'.
  destruct rs as [|r rs]; [done|]. cbn [truthy negb] in Hres'.
  destruct (index_links 0 (r :: rs) []) as [m|] eqn:Hidx;
    [|simpl in Hres'; congruence].
  cbn zeta in Hres'.
  destruct (dynamic_crawl_multi_urls m.*1 0 total_time) as [pages|] eqn:Hf;
    [|simpl in Hres'; congruence].
  pose proof (attach_all_slot m pages (r :: rs) i) as Hslot.
  destruct (attach_all' m pages (r :: rs)) as [rs' log']. simpl in Hres', Hslot.
  rewrite Hres', Hres in Hslot. simpl in Hslot. injection Hslot as ->.
  destruct (slot_text _ m pages i) as [md|] eqn:Hmd; simpl in Hne; [|done].
  apply slot_text_Some in Hmd as (u & ps & Hin & Hex & Hu).
  exists m, pages, u, ps, md. split_and!; try done.
  rewrite (url_to_idx_last_carrier _ _ _ Hidx) in Hu.
  apply last_carrier_Some in Hu as (res0 & Hres0 & Hk & _). congruence.
Qed.

Lemma crawl_all_index_error rs total_time e :
  index_links 0 rs [] = Err e →
  crawl_all' rs total_time = (Err e, rs, []).
Proof.
  intros Hidx. unfold crawl_all. destruct rs as [|r rs]; [done|].
  cbn [truthy negb]. by rewrite Hidx.
Qed.

(** Crawling again, with the pool answering as before, changes nothing
    more: the results of a second run are those of the first. *)
Theorem crawl_all_idempotent (rs : list value) (total_time : Z) :
  results_after
    (crawl_all' (results_after (crawl_all' rs total_time)) total_time)
  = results_after (crawl_all' rs total_time).
Proof.
  destruct (decide (rs = [])) as [->|Hne]; [done|].
  destruct (index_links 0 rs []) as [m|e] eqn:Hidx.
  2:{ rewrite (crawl_all_index_error rs total_time e Hidx).
      change (results_after (Err e, rs, [])) with rs.
      by rewrite (crawl_all_index_error rs total_time e Hidx). }
  destruct (dynamic_crawl_multi_urls m.*1 0 total_time) as [pages|e] eqn:Hf.
  2:{ rewrite (crawl_all_fetch_raises _ _ _ _ rs total_time m e Hne Hidx Hf).
      change (results_after (Err UnboundLocalError, rs, ?[log])) with rs.
      by rewrite (crawl_all_fetch_raises _ _ _ _ rs total_time m e
                    Hne Hidx Hf). }
  rewrite (crawl_all_fetched _ _ _ _ rs total_time m pages Hne Hidx Hf).
  unfold results_after at 2 3. cbn [fst snd].
  set (rs1 := (attach_all' m pages rs).1).
  assert (length rs1 = length rs) as Hlen by apply attach_all_length.
  assert (rs1 ≠ []) as Hne1.
  { intros Hnil. rewrite Hnil in Hlen. by destruct rs. }
  assert (index_links 0 rs1 [] = Ok m) as Hidx1.
  { rewrite <-Hidx. apply index_links_ext.
    apply Forall2_same_length_lookup. split; [done|].
    intros i r1 r Hr1 Hr. unfold rs1 in Hr1.
    rewrite attach_all_slot, Hr in Hr1. injection Hr1 as <-.
    destruct (slot_text _ m pages i); simpl; [|done].
    apply link_key_with_text. }
  rewrite (crawl_all_fetched _ _ _ _ rs1 total_time m pages Hne1 Hidx1 Hf).
  unfold results_after. cbn [fst snd].
  apply list_eq. intros i. unfold rs1. rewrite !attach_all_slot.
  destruct (slot_text _ m pages i); destruct (rs !! i); simpl; try done.
  by rewrite with_text_with_text.
Qed.

End page_loop.

(** ** Tool Entry Point: requests, failures and returned values *)

Section tool_behaviour.
Variable serp_api_key : option string.
Variable http_get_json : string → list (string * value) → Z → result value.
Variable dynamic_crawl_multi_urls :
  list key → Z → Z → result (list (key * string)).
Variable parse_html : string → result (list node).
Variable prettify : list node → result string.
Variable html2text : string → result string.

Local Abbreviation crawl_all' :=
  (crawl_all dynamic_crawl_multi_urls parse_html prettify html2text).
Local Abbreviation crawl_all_value' :=
  (crawl_all_value dynamic_crawl_multi_urls parse_html prettify html2text).
Local Abbreviation llm_search' :=
  (llm_search serp_api_key http_get_json dynamic_crawl_multi_urls parse_html
     prettify html2text).
Local Abbreviation tool_args query location start :=
  (Args.mk query location None None None start None None None None None).

Lemma crawl_all_crawls rs total_time :
  crawls (events (crawl_all' rs total_time)) = []
  ∨ ∃ urls, crawls (events (crawl_all' rs total_time))
            = [(urls, 0, total_time)].
Proof.
  unfold crawl_all, events. destruct rs as [|r rs]; [by left|].
  cbn [truthy negb].
  destruct (index_links 0 (r :: rs) []) as [m|]; [|by left].
  cbn zeta. right. exists m.*1.
  destruct (dynamic_crawl_multi_urls m.*1 0 total_time) as [pages|]; [|done].
  pose proof (attach_all_log_warnings parse_html prettify html2text m pages
                (r :: rs)) as Hw.
  destruct (attach_all _ _ _ m pages (r :: rs)) as [rs' log']. simpl in *.
  unfold crawls. simpl. fold (crawls log'). by rewrite crawls_warnings.
Qed.

Lemma crawl_all_value_crawls v total_time :
  crawls (events (crawl_all_value' v total_time)) = []
  ∨ ∃ urls, crawls (events (crawl_all_value' v total_time))
            = [(urls, 0, total_time)].
Proof.
  destruct v as [| | | |rs|]; simpl;
    try (left; match goal with |- context [if ?b then _ else _] =>
                 by destruct b end); try by left.
  pose proof (crawl_all_crawls rs total_time) as H. unfold events in *.
  by destruct (crawl_all' rs total_time) as [[r rs'] log].
Qed.

(** Every tool call starts with one search request, to the fixed endpoint
    with a timeout of 10; besides the engine, the query text and the API
    key that request can only carry [start], set as the caller set it. *)
Theorem llm_search_request (query : string) (location : option string)
    (start : option Z) (crawl : option bool) :
  ∃ params rest,
    (llm_search' query location start crawl).2
      = EvGet serp_url params 10 :: rest
    ∧ (∀ k, k ∈ params.*1 → k ∈ ["engine"; "q"; "api_key"; "start"])
    ∧ dict_get "q" params = Some (VStr (query_text query location))
    ∧ dict_get "start" params = VInt <$> start
    ∧ (∀ ev, ev ∈ rest → ∀ url ps t, ev ≠ EvGet url ps t).
Proof.
  exists (payload serp_api_key (tool_args query location start)).
  assert (∃ rest,
            (llm_search' query location start crawl).2
            = EvGet serp_url
                (payload serp_api_key (tool_args query location start)) 10
                :: rest
            ∧ ∀ ev, ev ∈ rest → ∀ url ps t, ev ≠ EvGet url ps t)
    as (rest & Hlog & Hrest).
  { unfold llm_search, search_light. cbn [fst snd].
    destruct (http_get_json _ _ _) as [resp|]; [|exists []; split; [done|by intros ? ?%elem_of_nil]].
    destruct (truthy (opt_value VBool crawl)); [|exists []; split; [done|by intros ? ?%elem_of_nil]].
    destruct (getitem resp "organic_results") as [organic|];
      [|exists []; split; [done|by intros ? ?%elem_of_nil]].
    assert (∀ ev, ev ∈ events (crawl_all_value' organic 8) →
              ∀ url ps t, ev ≠ EvGet url ps t) as Hnoget.
    { destruct organic as [| | | |rs|]; simpl;
        try (match goal with |- context [if ?b then _ else _] =>
               destruct b end); try by intros ? ?%elem_of_nil.
      unfold crawl_all, events. destruct rs as [|r rs];
        [by intros ? ?%elem_of_nil|].
      cbn [truthy negb].
      destruct (index_links 0 (r :: rs) []) as [m|];
        [|by intros ? ?%elem_of_nil].
      cbn zeta.
      destruct (dynamic_crawl_multi_urls m.*1 0 8) as [pages|].
      - pose proof (attach_all_log_warnings parse_html prettify html2text m
                      pages (r :: rs)) as Hw.
        destruct (attach_all _ _ _ m pages (r :: rs)) as [rs' log'].
        simpl in *. intros ev [->|Hin]%elem_of_cons; [done|].
        rewrite Forall_forall in Hw. specialize (Hw ev Hin).
        intros ? ? ? ->. done.
      - simpl. intros ev [->|[->|?%elem_of_nil]%elem_of_cons]%elem_of_cons;
          done. }
    unfold events in Hnoget.
    destruct (crawl_all_value' organic 8) as [[r organic'] log'].
    exists log'. by destruct r. }
  exists rest. split_and!; [done| | | |done].
  - intros k Hk.
    pose proof Hk as Hsome. apply dict_get_is_Some_keys in Hsome.
    rewrite payload_unfold in Hk. apply keys_filter_subseteq in Hk.
    rewrite payload_literal_keys in Hk. unfold optional_params in Hk.
    simpl app in Hk.
    repeat (apply elem_of_cons in Hk as [->|Hk]);
      [..|by apply elem_of_nil in Hk];
      try (solve [in_list]);
      exfalso; rewrite payload_get in Hsome; unfold payload_literal in Hsome;
      simpl dict_get in Hsome; revert Hsome; decide_keys; simpl;
      by intros [? ?].
  - apply payload_get_q.
  - rewrite payload_get_optional by (unfold optional_params; in_list).
    unfold optional_arg. by decide_keys.
Qed.

(** A failed search is the failure of the tool call: the exception is
    passed on unchanged and nothing else happens, whatever [crawl] is. *)
Theorem llm_search_search_failure (query : string) (location : option string)
    (start : option Z) (crawl : option bool) (e : exn) :
  http_get_json serp_url
    (payload serp_api_key (tool_args query location start)) 10 = Err e →
  llm_search' query location start crawl
  = (Err e,
     [EvGet serp_url
        (payload serp_api_key (tool_args query location start)) 10]).
Proof. intros Hresp. unfold llm_search, search_light. by rewrite Hresp. Qed.

(** Asked to crawl a response that has no [organic_results], the tool call
    raises [KeyError] at line 39, without calling the pool, even when the
    response has an answer box; the same response is returned trimmed when
    no crawl is asked. *)
Theorem llm_search_crawl_without_organic_results (query : string)
    (location : option string) (start : option Z)
    (d : list (string * value)) :
  http_get_json serp_url
    (payload serp_api_key (tool_args query location start)) 10
  = Ok (VDict d) →
  "organic_results" ∉ d.*1 →
  llm_search' query location start (Some true)
  = (Err KeyError,
     [EvGet serp_url
        (payload serp_api_key (tool_args query location start)) 10])
  ∧ ∃ out, (llm_search' query location start None).1 = Ok out
           ∧ ∀ k, k ∈ out.*1 ↔ k = "answer_box" ∧ k ∈ d.*1.
Proof.
  intros Hresp Hno. split.
  - unfold llm_search, search_light. cbn [fst snd]. rewrite Hresp.
    cbn [opt_value truthy getitem].
    apply dict_get_None_keys in Hno. by rewrite Hno.
  - unfold llm_search, search_light. cbn [fst snd]. rewrite Hresp.
    cbn [opt_value truthy]. eexists. split; [reflexivity|].
    intros k. rewrite (trim_keys d _ k eq_refl). split.
    + intros [Hk [->|Hk']%elem_of_cons]; [done|].
      apply list_elem_of_singleton in Hk' as ->. done.
    + intros [-> Hk]. split; [done|apply list_elem_of_here].
Qed.

(** A response that is not a JSON object fails the tool call: with
    [TypeError] at line 39 when a crawl is asked, with [AttributeError] at
    line 41 when not. *)
Theorem llm_search_response_not_a_dict (query : string)
    (location : option string) (start : option Z) (crawl : option bool)
    (response : value) :
  http_get_json serp_url
    (payload serp_api_key (tool_args query location start)) 10
  = Ok response →
  (∀ d, response ≠ VDict d) →
  (llm_search' query location start crawl).1
  = Err (if truthy (opt_value VBool crawl) then TypeError
         else AttributeError)
  ∧ crawls (llm_search' query location start crawl).2 = [].
Proof.
  intros Hresp Hnd. unfold llm_search, search_light. cbn [fst snd].
  rewrite Hresp.
  destruct response; try (by destruct (truthy (opt_value VBool crawl))).
  by destruct (Hnd d).
Qed.

(** The pool is called by a tool call at most once, only when [crawl] is
    truthy, and then with a settle delay of 0 and a budget of 8. *)
Theorem llm_search_crawl_budget (query : string) (location : option string)
    (start : option Z) (crawl : option bool) :
  crawls (llm_search' query location start crawl).2 = []
  ∨ truthy (opt_value VBool crawl) = true
    ∧ ∃ urls, crawls (llm_search' query location start crawl).2
              = [(urls, 0, 8)].
Proof.
  unfold llm_search, search_light. cbn [fst snd].
  destruct (http_get_json _ _ _) as [resp|]; [|by left].
  destruct (truthy (opt_value VBool crawl)); [|by left].
  destruct (getitem resp "organic_results") as [organic|]; [|by left].
  pose proof (crawl_all_value_crawls organic 8) as Hc. unfold events in Hc.
  destruct (crawl_all_value' organic 8) as [[r organic'] log'].
  cbn [snd] in Hc.
  assert (crawls ([EvGet serp_url
                     (payload serp_api_key (tool_args query location start))
                     10] ++ log') = crawls log') as Hlog by done.
  destruct r; cbn [snd]; rewrite Hlog;
    (destruct Hc as [->|[urls ->]]; [by left|right; eauto]).
Qed.

(** The values a tool call returns, when the response is a dict [d]: the
    answer box is the one of the response; the organic results are those
    of the response when no crawl is asked, and what [crawl_all] left of
    them when one is. *)
Theorem llm_search_returned_values (query : string)
    (location : option string) (start : option Z) (crawl : option bool)
    (d out : list (string * value)) :
  http_get_json serp_url
    (payload serp_api_key (tool_args query location start)) 10
  = Ok (VDict d) →
  NoDup d.*1 →
  (llm_search' query location start crawl).1 = Ok out →
  dict_get "answer_box" out = dict_get "answer_box" d
  ∧ (∀ k, k ∉ ["answer_box"; "organic_results"] → dict_get k out = None)
  ∧ dict_get "organic_results" out
    = (λ organic, if truthy (opt_value VBool crawl)
                  then (crawl_all_value' organic 8).1.2
                  else organic) <$> dict_get "organic_results" d.
Proof.
  intros Hresp Hnd. unfold llm_search, search_light. cbn [fst snd].
  rewrite Hresp.
  assert (∀ d', NoDup d'.*1 → ∀ k,
            dict_get k
              (List.filter
                 (λ kv : string * value,
                    bool_decide (kv.1 ∈ ["answer_box"; "organic_results"])) d')
            = if bool_decide (k ∈ ["answer_box"; "organic_results"])
              then dict_get k d' else None) as Hfilter.
  { intros d' Hnd' k. rewrite dict_get_filter by done. simpl.
    by destruct (dict_get k d'), (bool_decide _). }
  destruct (truthy (opt_value VBool crawl)).
  - unfold getitem.
    destruct (dict_get "organic_results" d) as [organic|] eqn:Hget; [|done].
    destruct (crawl_all_value' organic 8) as [[[[]|e] organic'] log'] eqn:Hc;
      [|done].
    cbn [fst write_back trim]. intros [= <-].
    pose proof (dict_set_NoDup "organic_results" organic' d Hnd) as Hnd'.
    split_and!.
    + rewrite Hfilter by done. rewrite bool_decide_true by in_list.
      by rewrite dict_get_set_ne.
    + intros k Hk. rewrite Hfilter by done. by rewrite bool_decide_false.
    + rewrite Hfilter by done. rewrite bool_decide_true by in_list.
      rewrite dict_get_set_eq. simpl. by rewrite Hc.
  - cbn [fst trim]. intros [= <-]. split_and!.
    + rewrite Hfilter by done. by rewrite bool_decide_true by in_list.
    + intros k Hk. rewrite Hfilter by done. by rewrite bool_decide_false.
    + rewrite Hfilter by done. rewrite bool_decide_true by in_list.
      by destruct (dict_get "organic_results" d).
Qed.

End tool_behaviour.

(** ** Content Extractor: the loop of lines 108-109 *)

Lemma decompose_matching_no_match names n :
  occurs names n = false → decompose_matching names n = [n].
Proof.
  revert n. fix IH 1. intros [s|name attrs contents]; simpl; [done|].
  intros [Hname Hcontents]%orb_false_iff. rewrite Hname. do 2 f_equal.
  induction contents as [|c contents IHc]; simpl in *; [done|].
  apply orb_false_iff in Hcontents as [Hc Hrest].
  by rewrite (IH c Hc), IHc.
Qed.

(** A tree without denylisted tags goes through the loop unchanged. *)
Theorem decompose_all_unchanged (names : list string) (soup : list node) :
  Forall (λ n, occurs names n = false) soup →
  decompose_all names soup = soup.
Proof.
  unfold decompose_all. induction 1 as [|n soup Hn _ IH]; simpl; [done|].
  by rewrite (decompose_matching_no_match names n Hn), IH.
Qed.

(** Running the loop a second time removes nothing more. *)
Theorem decompose_all_idempotent (names : list string) (soup : list node) :
  decompose_all names (decompose_all names soup) = decompose_all names soup.
Proof.
  induction soup as [|n soup IH]; [done|].
  unfold decompose_all in *. simpl. rewrite map_app, concat_app, IH.
  f_equal. clear IH.
  pose proof (decompose_matching_clean names n) as Hclean.
  induction Hclean as [|n' ns Hn' _ IHns]; simpl; [done|].
  by rewrite (decompose_matching_no_match names n' Hn'), IHns.
Qed.

(** ** The further properties on concrete inputs *)

Lemma payload_location_is_part_of_query_witness :
  search_light (Some "KEY") (api_returns raw_response) args_with_location
  = search_light (Some "KEY") (api_returns raw_response)
      args_location_in_query.
Proof.
  apply (payload_location_is_part_of_query (Some "KEY")
           (api_returns raw_response) "weather today" "Paris").
  discriminate.
Defined.

Lemma payload_determines_arguments_witness :
  query_text (Args.q args_with_location) (Args.location args_with_location)
  = query_text (Args.q args_location_in_query)
      (Args.location args_location_in_query)
  ∧ Args.safe args_with_location = Args.safe args_location_in_query
  ∧ Args.nfpr args_with_location = Args.nfpr args_location_in_query
  ∧ Args.filter args_with_location = Args.filter args_location_in_query
  ∧ Args.start args_with_location = Args.start args_location_in_query
  ∧ Args.num args_with_location = Args.num args_location_in_query
  ∧ Args.device args_with_location = Args.device args_location_in_query
  ∧ Args.no_cache args_with_location = Args.no_cache args_location_in_query
  ∧ Args.aasync args_with_location = Args.aasync args_location_in_query
  ∧ Args.zero_trace args_with_location
    = Args.zero_trace args_location_in_query.
Proof.
  apply (payload_determines_arguments (Some "KEY") args_with_location
           args_location_in_query).
  reflexivity.
Defined.

Lemma crawl_all_unusable_link_raises_witness :
  crawl_all (pool_returns page_a) parse_as_text prettify_text html2text_id
    ([result_a1] ++ result_no_link :: [result_b]) 8
  = (Err KeyError, [result_a1] ++ result_no_link :: [result_b], []).
Proof.
  apply (crawl_all_unusable_link_raises (pool_returns page_a) parse_as_text
           prettify_text html2text_id [result_a1] [result_b] result_no_link
           KeyError 8).
  - repeat constructor.
  - reflexivity.
Defined.

Lemma crawl_all_calls_pool_once_witness :
  ∃ urls,
    crawls
      (events
         (crawl_all (pool_returns page_a) parse_as_text prettify_text
            html2text_id [result_a1; result_a2; result_b] 8))
    = [(urls, 0, 8)]
    ∧ NoDup urls
    ∧ ∀ u, u ∈ urls ↔
        ∃ i res, [result_a1; result_a2; result_b] !! i = Some res
                 ∧ link_key res = Ok u.
Proof.
  apply (crawl_all_calls_pool_once (pool_returns page_a) parse_as_text
           prettify_text html2text_id [result_a1; result_a2; result_b] 8).
  - discriminate.
  - repeat constructor.
Defined.

Lemma crawl_all_logs_failed_pages_witness :
  events
    (crawl_all (pool_returns page_a_and_b) parse_rejecting_hello
       prettify_text html2text_id [result_a1; result_b] 8)
  = [EvCrawl [KStr "https://a.example"; KStr "https://b.example"] 0 8;
     EvLogWarning "fail parse page_source hello"].
Proof.
  exact (crawl_all_logs_failed_pages (pool_returns page_a_and_b)
           parse_rejecting_hello prettify_text html2text_id
           [result_a1; result_b] 8
           [(KStr "https://a.example", 0%nat);
            (KStr "https://b.example", 1%nat)]
           page_a_and_b ltac:(discriminate) eq_refl eq_refl).
Defined.

Lemma crawl_all_ignores_unrequested_pages_witness :
  crawl_all (pool_returns page_elsewhere) parse_as_text prettify_text
    html2text_id [result_a1; result_b] 8
  = (Ok (), [result_a1; result_b],
     [EvCrawl [KStr "https://a.example"; KStr "https://b.example"] 0 8;
      EvLogWarning "fail parse page_source stray"]).
Proof.
  apply (crawl_all_ignores_unrequested_pages (pool_returns page_elsewhere)
           parse_as_text prettify_text html2text_id [result_a1; result_b] 8
           [(KStr "https://a.example", 0%nat);
            (KStr "https://b.example", 1%nat)]
           page_elsewhere).
  - discriminate.
  - reflexivity.
  - reflexivity.
  - intros u ps i res Hin Hres.
    apply list_elem_of_singleton in Hin. injection Hin as -> ->.
    destruct i as [|[|i]]; simpl in Hres; [| |discriminate Hres];
      injection Hres as <-; discriminate.
Defined.

Lemma crawl_all_text_comes_from_own_page_witness :
  ∃ url_to_idx pages u ps markdown,
    index_links 0 [result_a1; result_a2; result_b] [] = Ok url_to_idx
    ∧ pool_returns page_a url_to_idx.*1 0 8 = Ok pages
    ∧ (u, ps) ∈ pages
    ∧ (extract parse_as_text prettify_text html2text_id ps).2 = Ok markdown
    ∧ link_key result_a2 = Ok u
    ∧ with_text "hello" result_a2 = with_text markdown result_a2.
Proof.
  apply (crawl_all_text_comes_from_own_page (pool_returns page_a)
           parse_as_text prettify_text html2text_id
           [result_a1; result_a2; result_b] 8 1 result_a2
           (with_text "hello" result_a2)).
  - reflexivity.
  - reflexivity.
  - discriminate.
Defined.

Lemma llm_search_search_failure_witness :
  llm_search (Some "KEY") api_down (pool_returns page_a) parse_as_text
    prettify_text html2text_id "weather today" None None (Some true)
  = (Err (Raised "ClientResponseError"),
     [EvGet serp_url
        (payload (Some "KEY")
           (Args.mk "weather today" None None None None None None None None
              None None)) 10]).
Proof.
  apply (llm_search_search_failure (Some "KEY") api_down (pool_returns page_a)
           parse_as_text prettify_text html2text_id "weather today" None None
           (Some true) (Raised "ClientResponseError")).
  reflexivity.
Defined.

Lemma llm_search_crawl_without_organic_results_witness :
  llm_search (Some "KEY") (api_returns (VDict answer_only))
    (pool_returns page_a) parse_as_text prettify_text html2text_id
    "weather today" None None (Some true)
  = (Err KeyError,
     [EvGet serp_url
        (payload (Some "KEY")
           (Args.mk "weather today" None None None None None None None None
              None None)) 10])
  ∧ ∃ out,
      (llm_search (Some "KEY") (api_returns (VDict answer_only))
         (pool_returns page_a) parse_as_text prettify_text html2text_id
         "weather today" None None None).1 = Ok out
      ∧ ∀ k, k ∈ out.*1 ↔ k = "answer_box" ∧ k ∈ answer_only.*1.
Proof.
  apply (llm_search_crawl_without_organic_results (Some "KEY")
           (api_returns (VDict answer_only)) (pool_returns page_a)
           parse_as_text prettify_text html2text_id "weather today" None None
           answer_only).
  - reflexivity.
  - intros Hin. simpl in Hin.
    repeat (apply elem_of_cons in Hin as [Hin|Hin]; [discriminate Hin|]).
    by apply elem_of_nil in Hin.
Defined.

Lemma llm_search_response_not_a_dict_witness :
  (llm_search (Some "KEY") (api_returns (VList [])) (pool_returns page_a)
     parse_as_text prettify_text html2text_id "weather today" None None
     (Some true)).1 = Err TypeError
  ∧ crawls
      (llm_search (Some "KEY") (api_returns (VList [])) (pool_returns page_a)
         parse_as_text prettify_text html2text_id "weather today" None None
         (Some true)).2 = [].
Proof.
  apply (llm_search_response_not_a_dict (Some "KEY") (api_returns (VList []))
           (pool_returns page_a) parse_as_text prettify_text html2text_id
           "weather today" None None (Some true) (VList [])).
  - reflexivity.
  - discriminate.
Defined.

Lemma llm_search_returned_values_witness :
  ∃ out,
    (llm_search (Some "KEY") (api_returns raw_response) (pool_returns page_a)
       parse_as_text prettify_text html2text_id "weather today" None None
       (Some true)).1 = Ok out
    ∧ dict_get "answer_box" out
      = Some (VDict [("type", VStr "weather_result")])
    ∧ dict_get "organic_results" out
      = Some (VList [with_text "hello" result_a1; result_b]).
Proof.
  eexists. split; [reflexivity|].
  destruct (llm_search_returned_values (Some "KEY") (api_returns raw_response)
              (pool_returns page_a) parse_as_text prettify_text html2text_id
              "weather today" None None (Some true)
              [("search_metadata", VDict [("status", VStr "Success")]);
               ("answer_box", VDict [("type", VStr "weather_result")]);
               ("organic_results", VList [result_a1; result_b])]
              _ eq_refl
              ltac:(apply (bool_decide_unpack _); vm_compute; exact I)
              eq_refl) as (Hanswer & _ & Horganic).
  split; [exact Hanswer|exact Horganic].
Defined.

Lemma extract_converts_clean_tree_witness :
  ∃ soup markup,
    parse_sample "<html>" = Ok soup
    ∧ Forall (λ n, occurs denylist n = false) (decompose_all denylist soup)
    ∧ prettify_text (decompose_all denylist soup) = Ok markup
    ∧ html2text_id markup = Ok "introbody".
Proof.
  apply (extract_converts_clean_tree parse_sample prettify_text html2text_id
           "<html>" "introbody").
  reflexivity.
Defined.

Lemma decompose_all_unchanged_witness :
  decompose_all denylist [Tag "div" [] [Text "intro"; Tag "p" [] [Text "body"]]]
  = [Tag "div" [] [Text "intro"; Tag "p" [] [Text "body"]]].
Proof.
  apply (decompose_all_unchanged denylist).
  repeat constructor.
Defined.
